(** * Flash buffered write (fbw): a shallow embedding of
      subsys/storage/flash_buffered_write/fbw.c

    The engine streams bytes into a flash device through a RAM staging
    buffer.  The embedding follows the C text function by function:
    [fbw_erase], [flash_sync], [fbw_write], [fbw_bytes_written] and
    [fbw_init].  The flash driver (drivers/flash.h) and the verification
    callback are external to the engine; they are taken as a record of
    functions over an abstract world [W], the way the C code reaches them
    through function pointers. *)

From Stdlib Require Import ZArith List Bool Lia.
From Stdlib.Strings Require Import Byte.
Import ListNotations.
Local Open Scope Z_scope.

(** ** Machine integers

    The target of the tree (soc/arm/st_stm32/stm32g4) is a 32-bit ARM
    core: [size_t] is a 32-bit unsigned integer, [int] and [off_t] are
    32-bit signed integers.  Values are carried as [Z]; every C operation
    that can wrap is written with its reduction. *)

Definition SIZE_BITS : Z := 32.
Definition SIZE_MOD : Z := 2 ^ SIZE_BITS.
Definition SIZE_MAX : Z := SIZE_MOD - 1.
Definition INT_MIN : Z := - 2 ^ (SIZE_BITS - 1).

(** Conversion to [size_t] (reduction modulo 2^32). *)
Definition to_size (z : Z) : Z := z mod SIZE_MOD.

(** Conversion to [int] / [off_t] (two's complement, as gcc defines it). *)
Definition to_int (z : Z) : Z := (z - INT_MIN) mod SIZE_MOD + INT_MIN.

Definition size_add (a b : Z) : Z := to_size (a + b).
Definition size_sub (a b : Z) : Z := to_size (a - b).
Definition size_mul (a b : Z) : Z := to_size (a * b).
Definition int_add (a b : Z) : Z := to_int (a + b).

(** A value of type [size_t]. *)
Definition is_size (z : Z) : Prop := 0 <= z <= SIZE_MAX.

(** Modelled from the spec: errno.h is not among the sources.  The
    spec's bad-argument is [-EFAULT] and its no-space is [-ENOMEM]; the
    numbers are the usual ones. *)
Definition EIO : Z := 5.
Definition ENOMEM : Z := 12.
Definition EFAULT : Z := 14.
Definition EINVAL : Z := 22.

(** [rc != 0] *)
Definition nonzero (rc : Z) : bool := negb (rc =? 0).

(** ** Flash driver interface (drivers/flash.h) *)

(** Modelled from the spec: [struct flash_pages_layout] of
    drivers/flash.h, which is not among the sources; a region of
    [pages_count] pages of [pages_size] bytes each. *)
Record flash_pages_layout : Type := {
  pages_count : Z;
  pages_size : Z
}.

(** Modelled from the spec: [struct flash_pages_info] of drivers/flash.h,
    which is not among the sources; the page holding an offset. *)
Record flash_pages_info : Type := {
  start_offset : Z;
  size : Z;
  index : Z
}.

(** What the engine asks of the outside, in call order. *)
Inductive event : Type :=
| EvProtect (enable : bool)
| EvErase (off len : Z)
| EvWrite (off : Z) (data : list byte)
| EvRead (off len : Z)
| EvHook (len off : Z).

(** A source pointer [const u8_t *data]: the memory it points into,
    indexed from the pointer. *)
Definition data_ptr : Type := Z -> byte.

Section Engine.

(** The state of everything outside the engine: flash contents, driver
    state, the callback's own variables. *)
Context {W : Type}.

(** Modelled from the spec: [struct device] with its [flash_driver_api]
    (drivers/flash.h, not among the sources), as the flash device
    contract of the spec lists it.  The page geometry is a
    fixed property of the device; erase, write, read and the
    write-protection switch act on the world.  [flash_read] receives the
    destination bytes and returns what the destination holds afterwards,
    so that a failing read may leave anything behind. *)
Record device : Type := {
  page_layout : list flash_pages_layout;
  write_block_size : Z;
  flash_get_page_info_by_offs : Z -> Z * flash_pages_info;
  flash_erase : Z -> Z -> W -> Z * W;
  flash_write : Z -> list byte -> Z -> W -> Z * W;
  flash_read : Z -> list byte -> Z -> W -> Z * list byte * W;
  flash_write_protection_set : bool -> W -> Z * W
}.

(** [fbw_callback_t]: a function of [buf], [len] and [offset] returning
    [int].  The callback is taken not to write through [buf] and not to call
    back into the engine. *)
Definition fbw_callback_t : Type := list byte -> Z -> Z -> W -> Z * W.

(** The world together with the record of driver and callback calls
    made so far (oldest first).  The record is not program state; it is
    kept to state how many calls an operation makes. *)
Record env : Type := {
  world : W;
  trace : list event
}.

(** Modelled from the spec: [struct fbw_ctx] is declared in
    storage/fbw.h, which is not among the sources; the fields are those
    of the spec's data model, under the names fbw.c uses.  [buf] is the
    content of the caller's staging array.  A context always names some
    device: a dangling [fdev] is not modelled. *)
Record fbw_ctx : Type := {
  buf : list byte;
  buf_len : Z;
  buf_bytes : Z;
  fdev : device;
  bytes_written : Z;
  offset : Z;
  available : Z;
  callback : option fbw_callback_t;
  last_erased_page_start_offset : Z
}.

Definition set_buf (ctx : fbw_ctx) (b : list byte) : fbw_ctx :=
  {| buf := b; buf_len := buf_len ctx; buf_bytes := buf_bytes ctx;
     fdev := fdev ctx; bytes_written := bytes_written ctx;
     offset := offset ctx; available := available ctx;
     callback := callback ctx;
     last_erased_page_start_offset := last_erased_page_start_offset ctx |}.

Definition set_buf_bytes (ctx : fbw_ctx) (n : Z) : fbw_ctx :=
  {| buf := buf ctx; buf_len := buf_len ctx; buf_bytes := n;
     fdev := fdev ctx; bytes_written := bytes_written ctx;
     offset := offset ctx; available := available ctx;
     callback := callback ctx;
     last_erased_page_start_offset := last_erased_page_start_offset ctx |}.

Definition set_bytes_written (ctx : fbw_ctx) (n : Z) : fbw_ctx :=
  {| buf := buf ctx; buf_len := buf_len ctx; buf_bytes := buf_bytes ctx;
     fdev := fdev ctx; bytes_written := n;
     offset := offset ctx; available := available ctx;
     callback := callback ctx;
     last_erased_page_start_offset := last_erased_page_start_offset ctx |}.

Definition set_last_erased (ctx : fbw_ctx) (off : Z) : fbw_ctx :=
  {| buf := buf ctx; buf_len := buf_len ctx; buf_bytes := buf_bytes ctx;
     fdev := fdev ctx; bytes_written := bytes_written ctx;
     offset := offset ctx; available := available ctx;
     callback := callback ctx;
     last_erased_page_start_offset := off |}.

(** *** Driver and callback calls, recorded *)

Definition dev_protect (d : device) (enable : bool) (e : env) : env :=
  let '(_, w) := flash_write_protection_set d enable (world e) in
  {| world := w; trace := trace e ++ [EvProtect enable] |}.

Definition dev_erase (d : device) (off len : Z) (e : env) : Z * env :=
  let '(rc, w) := flash_erase d off len (world e) in
  (rc, {| world := w; trace := trace e ++ [EvErase off len] |}).

Definition dev_write (d : device) (off : Z) (data : list byte) (len : Z)
  (e : env) : Z * env :=
  let '(rc, w) := flash_write d off data len (world e) in
  (rc, {| world := w; trace := trace e ++ [EvWrite off data] |}).

Definition dev_read (d : device) (off : Z) (dst : list byte) (len : Z)
  (e : env) : Z * list byte * env :=
  let '(rc, got, w) := flash_read d off dst len (world e) in
  (rc, got, {| world := w; trace := trace e ++ [EvRead off len] |}).

Definition call_hook (cb : fbw_callback_t) (b : list byte) (len off : Z)
  (e : env) : Z * env :=
  let '(rc, w) := cb b len off (world e) in
  (rc, {| world := w; trace := trace e ++ [EvHook len off] |}).

(** ** fbw_erase (fbw.c:21-48) *)

Definition fbw_erase (ctx : fbw_ctx) (off : Z) (e : env)
  : Z * fbw_ctx * env :=
  let '(rc, page) := flash_get_page_info_by_offs (fdev ctx) off in
  if nonzero rc then (rc, ctx, e)
  else if last_erased_page_start_offset ctx =? start_offset page
  then (0, ctx, e)
  else
    let ctx := set_last_erased ctx (start_offset page) in
    let e := dev_protect (fdev ctx) false e in
    let '(rc, e) := dev_erase (fdev ctx) (start_offset page) (size page) e in
    let e := dev_protect (fdev ctx) true e in
    (rc, ctx, e).

(** ** flash_sync (fbw.c:52-95)

    [CONFIG_FBW_ERASE] is the build-time switch of the erase policy. *)

Variable CONFIG_FBW_ERASE : bool.

(** [ctx->bytes_written += ctx->buf_bytes; ctx->buf_bytes = 0U;] *)
Definition advance (ctx : fbw_ctx) : fbw_ctx :=
  set_buf_bytes
    (set_bytes_written ctx (size_add (bytes_written ctx) (buf_bytes ctx))) 0.

Definition flash_sync (ctx : fbw_ctx) (e : env) : Z * fbw_ctx * env :=
  let write_addr := size_add (offset ctx) (bytes_written ctx) in
  let '(rc, ctx, e) :=
    if CONFIG_FBW_ERASE
    then fbw_erase ctx (to_int (size_add write_addr (buf_bytes ctx))) e
    else (0, ctx, e) in
  if CONFIG_FBW_ERASE && (rc <? 0) then (rc, ctx, e)
  else
    let e := dev_protect (fdev ctx) false e in
    let '(rc, e) :=
      dev_write (fdev ctx) (to_int write_addr)
        (firstn (Z.to_nat (buf_bytes ctx)) (buf ctx)) (buf_bytes ctx) e in
    let e := dev_protect (fdev ctx) true e in
    if nonzero rc then (rc, ctx, e)
    else
      match callback ctx with
      | Some cb =>
          let '(rc, got, e) :=
            dev_read (fdev ctx) (to_int write_addr)
              (firstn (Z.to_nat (buf_bytes ctx)) (buf ctx)) (buf_bytes ctx) e in
          let ctx :=
            set_buf ctx (got ++ skipn (Z.to_nat (buf_bytes ctx)) (buf ctx)) in
          if nonzero rc then (rc, ctx, e)
          else
            let '(rc, e) := call_hook cb (buf ctx) (buf_bytes ctx) write_addr e in
            (* a non-zero rc is logged, execution continues *)
            (rc, advance ctx, e)
      | None => (rc, advance ctx, e)
      end.

(** ** fbw_write (fbw.c:97-138) *)

(** [memcpy(dst + pos, src + from, n)] on the content of [dst]. *)
Definition memcpy (dst : list byte) (pos : Z) (src : data_ptr) (from n : Z)
  : list byte :=
  firstn (Z.to_nat pos) dst
  ++ map (fun i => src (from + Z.of_nat i)) (seq 0 (Z.to_nat n))
  ++ skipn (Z.to_nat (pos + n)) dst.

(** How the [while] loop is left: by the [return rc] inside it, or by
    its condition becoming false. *)
Inductive loop_exit : Type :=
| LoopReturn (rc : Z) (ctx : fbw_ctx) (e : env)
| LoopDone (rc : Z) (ctx : fbw_ctx) (processed : Z) (e : env).

(** [buf_empty_bytes = ctx->buf_len - ctx->buf_bytes] (line 112): a
    [size_t] difference stored into an [int]. *)
Definition buf_empty_bytes (ctx : fbw_ctx) : Z :=
  to_int (size_sub (buf_len ctx) (buf_bytes ctx)).

(** Lines 113-116: fill the staging buffer up from the input. *)
Definition fill_buffer (ctx : fbw_ctx) (data : data_ptr) (processed n : Z)
  : fbw_ctx :=
  let ctx :=
    set_buf ctx (memcpy (buf ctx) (buf_bytes ctx) data processed (to_size n)) in
  set_buf_bytes ctx (buf_len ctx).

(** The loop of lines 111-124; [processed] and [buf_empty_bytes] are C
    [int]s, converted to [size_t] where the C text mixes them with
    [size_t] operands.  [None] when [fuel] iterations did not suffice. *)
Fixpoint write_loop (fuel : nat) (ctx : fbw_ctx) (data : data_ptr)
  (len processed rc : Z) (e : env) : option loop_exit :=
  match fuel with
  | O => None
  | S fuel' =>
      let n := buf_empty_bytes ctx in
      if size_sub len (to_size processed) >=? to_size n then
        let '(rc, ctx, e) := flash_sync (fill_buffer ctx data processed n) e in
        if nonzero rc then Some (LoopReturn rc ctx e)
        else write_loop fuel' ctx data len (int_add processed n) rc e
      else Some (LoopDone rc ctx processed e)
  end.

(** Lines 126-131: the rest of the data goes into the staging buffer. *)
Definition place_rest (ctx : fbw_ctx) (data : data_ptr) (len processed : Z)
  : fbw_ctx :=
  if to_size processed <? len then
    let n := size_sub len (to_size processed) in
    set_buf_bytes
      (set_buf ctx (memcpy (buf ctx) (buf_bytes ctx) data processed n))
      (size_add (buf_bytes ctx) n)
  else ctx.

(** A null [ctx] or [data] is [None].  The result carries the context as
    the call leaves it. *)
Definition fbw_write (fuel : nat) (ctx : option fbw_ctx)
  (data : option data_ptr) (len : Z) (flush : bool) (e : env)
  : option (Z * option fbw_ctx * env) :=
  match ctx, data with
  | Some c, Some d =>
      if size_add (size_add (bytes_written c) (buf_bytes c)) len
         >? available c
      then Some (- ENOMEM, Some c, e)
      else
        match write_loop fuel c d len 0 0 e with
        | None => None
        | Some (LoopReturn rc c e) => Some (rc, Some c, e)
        | Some (LoopDone rc c processed e) =>
            let c := place_rest c d len processed in
            if flush && (buf_bytes c >? 0) then
              let '(rc, c, e) := flash_sync c e in Some (rc, Some c, e)
            else Some (rc, Some c, e)
        end
  | _, _ => Some (- EFAULT, ctx, e)
  end.

(** ** fbw_bytes_written (fbw.c:140-143) *)

Definition fbw_bytes_written (ctx : fbw_ctx) : Z := bytes_written ctx.

(** ** fbw_init (fbw.c:145-192) *)

(** The [for] loop of lines 159-170 over the layout regions: the running
    [total_size], or the error returned from inside the loop. *)
Fixpoint layout_scan (buf_len : Z) (layout : list flash_pages_layout)
  (total_size : Z) : Z + Z :=
  match layout with
  | [] => inr total_size
  | l :: layout' =>
      let total_size :=
        size_add total_size (size_mul (pages_count l) (pages_size l)) in
      if buf_len >? pages_size l then inl (- EFAULT)
      else layout_scan buf_len layout' total_size
  end.

(** Null [ctx], [fdev] or [buf] are [None].  The result carries the
    content of [*ctx] after the call.  The outer [None] is the undefined
    [offset % 0] of line 173. *)
Definition fbw_init (ctx : option fbw_ctx) (fdev : option device)
  (buf : option (list byte)) (buf_len offset size : Z)
  (cb : option fbw_callback_t) : option (Z * option fbw_ctx) :=
  match ctx, fdev, buf with
  | Some _, Some d, Some b =>
      match layout_scan buf_len (page_layout d) 0 with
      | inl rc => Some (rc, ctx)
      | inr total_size =>
          if size_add offset size >? total_size then Some (- EFAULT, ctx)
          else if write_block_size d =? 0 then None
          else if nonzero (offset mod write_block_size d)
          then Some (- EFAULT, ctx)
          else
            Some (0, Some {| buf := b; buf_len := buf_len; buf_bytes := 0;
                             fdev := d; bytes_written := 0; offset := offset;
                             available :=
                               if size =? 0 then size_sub total_size offset
                               else size;
                             callback := cb;
                             last_erased_page_start_offset := -1 |})
      end
  | _, _, _ => Some (- EFAULT, ctx)
  end.

End Engine.

(** ** A small flash device for concrete runs

    Four pages of sixteen bytes, write-block size one.  Operations
    outside the device fail with [-EINVAL], as a driver's range check
    does.  The world also holds [cb_ret], the value the test suite's
    callback returns (tests/.../main.c:52-61). *)

Record sim_world : Type := {
  mem : list byte;
  cb_ret : Z
}.

Definition SIM_PAGE_SIZE : Z := 16.
Definition SIM_PAGES : Z := 4.
Definition SIM_SIZE : Z := SIM_PAGES * SIM_PAGE_SIZE.

Definition sim_in_range (off len : Z) : bool :=
  (0 <=? off) && (0 <=? len) && (off + len <=? SIM_SIZE).

Definition splice (m : list byte) (off : Z) (data : list byte) : list byte :=
  firstn (Z.to_nat off) m ++ data
  ++ skipn (Z.to_nat off + length data) m.

Definition sim_page_info (off : Z) : Z * flash_pages_info :=
  if (0 <=? off) && (off <? SIM_SIZE) then
    (0, {| start_offset := off / SIM_PAGE_SIZE * SIM_PAGE_SIZE;
           size := SIM_PAGE_SIZE;
           index := off / SIM_PAGE_SIZE |})
  else (- EINVAL, {| start_offset := 0; size := 0; index := 0 |}).

Definition sim_erase (off len : Z) (w : sim_world) : Z * sim_world :=
  if sim_in_range off len then
    (0, {| mem := splice (mem w) off (repeat xff (Z.to_nat len));
           cb_ret := cb_ret w |})
  else (- EINVAL, w).

Definition sim_write (off : Z) (data : list byte) (len : Z) (w : sim_world)
  : Z * sim_world :=
  if sim_in_range off len then
    (0, {| mem := splice (mem w) off (firstn (Z.to_nat len) data);
           cb_ret := cb_ret w |})
  else (- EINVAL, w).

Definition sim_read (off : Z) (dst : list byte) (len : Z) (w : sim_world)
  : Z * list byte * sim_world :=
  if sim_in_range off len then
    (0, firstn (Z.to_nat len) (skipn (Z.to_nat off) (mem w)), w)
  else (- EINVAL, dst, w).

Definition sim_protect (enable : bool) (w : sim_world) : Z * sim_world :=
  (0, w).

Definition sim_flash : @device sim_world :=
  {| page_layout := [ {| pages_count := SIM_PAGES;
                         pages_size := SIM_PAGE_SIZE |} ];
     write_block_size := 1;
     flash_get_page_info_by_offs := sim_page_info;
     flash_erase := sim_erase;
     flash_write := sim_write;
     flash_read := sim_read;
     flash_write_protection_set := sim_protect |}.

(** The test suite's callback with [cb_buf == NULL]: it returns
    [cb_ret]. *)
Definition fbw_callback : @fbw_callback_t sim_world :=
  fun _ _ _ w => (cb_ret w, w).

(** An erased device, no call made yet. *)
Definition sim_env (ret : Z) : @env sim_world :=
  {| world := {| mem := repeat xff (Z.to_nat SIM_SIZE); cb_ret := ret |};
     trace := [] |}.

(** [memset(&ctx, 0, sizeof(ctx))], the device field apart. *)
Definition sim_ctx0 : @fbw_ctx sim_world :=
  {| buf := []; buf_len := 0; buf_bytes := 0; fdev := sim_flash;
     bytes_written := 0; offset := 0; available := 0; callback := None;
     last_erased_page_start_offset := 0 |}.

(** The caller's data: a pattern of [0xaa]. *)
Definition write_buf : data_ptr := fun _ => xaa.

(** [fbw_init(&ctx, fdev, buf, 8, offset, size, cb)] on the small
    device, with an eight-byte staging buffer. *)
Definition sim_init (offset size : Z) (cb : option (@fbw_callback_t sim_world))
  : option (Z * option (@fbw_ctx sim_world)) :=
  fbw_init (Some sim_ctx0) (Some sim_flash) (Some (repeat x00 8)) 8
    offset size cb.

(** What a call left behind. *)
Definition ctx_of_init (r : option (Z * option (@fbw_ctx sim_world)))
  : @fbw_ctx sim_world :=
  match r with Some (_, Some c) => c | _ => sim_ctx0 end.

Definition ctx_of_write
  (r : option (Z * option (@fbw_ctx sim_world) * @env sim_world))
  : @fbw_ctx sim_world :=
  match r with Some (_, Some c, _) => c | _ => sim_ctx0 end.

Definition env_of_write
  (r : option (Z * option (@fbw_ctx sim_world) * @env sim_world))
  : @env sim_world :=
  match r with Some (_, _, e) => e | None => sim_env 0 end.

(** The test suite's [init_target]: a stream from offset 16 to the end
    of the device. *)
Definition stream_ctx (cb : option (@fbw_callback_t sim_world))
  : @fbw_ctx sim_world :=
  ctx_of_init (sim_init 16 0 cb).

(** A stream confined to the first page: [size = 16] at offset 0. *)
Definition slot_ctx : @fbw_ctx sim_world := ctx_of_init (sim_init 0 16 None).

(** One byte written into the slot, then a write whose [len] is
    [SIZE_MAX]. *)
Definition one_byte
  : option (Z * option (@fbw_ctx sim_world) * @env sim_world) :=
  fbw_write true 2 (Some slot_ctx) (Some write_buf) 1 false (sim_env 0).

Definition oversized
  : option (Z * option (@fbw_ctx sim_world) * @env sim_world) :=
  fbw_write true 20 (Some (ctx_of_write one_byte)) (Some write_buf) SIZE_MAX
    false (env_of_write one_byte).

(** Three bytes written into a fresh stream. *)
Definition three_bytes
  : option (Z * option (@fbw_ctx sim_world) * @env sim_world) :=
  fbw_write true 2 (Some (stream_ctx None)) (Some write_buf) 3 false
    (sim_env 0).

(** One full buffer written into a fresh stream (the first step of the
    erase test, main.c:283). *)
Definition one_buffer
  : option (Z * option (@fbw_ctx sim_world) * @env sim_world) :=
  fbw_write true 3 (Some (stream_ctx None)) (Some write_buf) 8 false
    (sim_env 0).

(** A staging buffer just filled, about to be committed, with the
    callback installed. *)
Definition full_ctx : @fbw_ctx sim_world :=
  fill_buffer (stream_ctx (Some fbw_callback)) write_buf 0 8.

(** Twenty bytes written and flushed: two full buffers and a residue
    of four (the shape of the test [test_fbw_write_cross_buf_border]). *)
Definition cross_border (ret : Z)
  : option (Z * option (@fbw_ctx sim_world) * @env sim_world) :=
  fbw_write true 4 (Some (stream_ctx (Some fbw_callback))) (Some write_buf) 20
    true (sim_env ret).

(** Sixteen more bytes after the three buffered ones. *)
Definition two_buffers
  : option (Z * option (@fbw_ctx sim_world) * @env sim_world) :=
  fbw_write true 4 (Some (ctx_of_write three_bytes)) (Some write_buf) 16 false
    (env_of_write three_bytes).

(** Eight more bytes after the three buffered ones. *)
Definition eight_more
  : option (Z * option (@fbw_ctx sim_world) * @env sim_world) :=
  fbw_write true 4 (Some (ctx_of_write three_bytes)) (Some write_buf) 8 false
    (env_of_write three_bytes).

(** [fbw_erase(&ctx, 16)] twice after one buffer was written (main.c:
    283-286, and a second call). *)
Definition erase_after_write
  : Z * @fbw_ctx sim_world * @env sim_world :=
  fbw_erase (ctx_of_write one_buffer) 16 (env_of_write one_buffer).

Definition erase_after_write_again
  : Z * @fbw_ctx sim_world * @env sim_world :=
  fbw_erase (snd (fst erase_after_write)) 16 (snd erase_after_write).

(** [fbw_erase] at offsets 16 and 20 of a fresh stream. *)
Definition erase_fresh : Z * @fbw_ctx sim_world * @env sim_world :=
  fbw_erase (stream_ctx None) 16 (sim_env 0).

Definition erase_fresh_again : Z * @fbw_ctx sim_world * @env sim_world :=
  fbw_erase (snd (fst erase_fresh)) 20 (snd erase_fresh).

(** The small device with an erase that always fails with [-EIO]. *)
Definition worn_flash : @device sim_world :=
  {| page_layout := page_layout sim_flash;
     write_block_size := write_block_size sim_flash;
     flash_get_page_info_by_offs := sim_page_info;
     flash_erase := fun _ _ w => (- EIO, w);
     flash_write := sim_write;
     flash_read := sim_read;
     flash_write_protection_set := sim_protect |}.

Definition worn_ctx : @fbw_ctx sim_world :=
  ctx_of_init
    (fbw_init (Some sim_ctx0) (Some worn_flash) (Some (repeat x00 8)) 8 16 0
       None).

Definition erase_worn : Z * @fbw_ctx sim_world * @env sim_world :=
  fbw_erase worn_ctx 16 (sim_env 0).

(** The test [test_fbw_write]: one byte short of a buffer, then the
    missing byte. *)
Definition seven_bytes
  : option (Z * option (@fbw_ctx sim_world) * @env sim_world) :=
  fbw_write true 2 (Some (stream_ctx None)) (Some write_buf) 7 false
    (sim_env 0).

Definition top_up
  : option (Z * option (@fbw_ctx sim_world) * @env sim_world) :=
  fbw_write true 3 (Some (ctx_of_write seven_bytes)) (Some write_buf) 1 false
    (env_of_write seven_bytes).

(** [flash_read(fdev, off, read_buf, len)] of the test's [VERIFY_BUF]. *)
Definition flash_range
  (r : option (Z * option (@fbw_ctx sim_world) * @env sim_world))
  (off len : Z) : list byte :=
  firstn (Z.to_nat len) (skipn (Z.to_nat off) (mem (world (env_of_write r)))).

(** The calls an operation added to the record. *)
Definition erases (t : list event) : list (Z * Z) :=
  flat_map (fun ev => match ev with EvErase o l => [(o, l)] | _ => [] end) t.

Definition writes (t : list event) : list (Z * Z) :=
  flat_map (fun ev => match ev with
                      | EvWrite o d => [(o, Z.of_nat (length d))]
                      | _ => []
                      end) t.

Definition hooks (t : list event) : list (Z * Z) :=
  flat_map (fun ev => match ev with EvHook l o => [(l, o)] | _ => [] end) t.

(** The fields of a context hold [size_t] values. *)
Definition wf_ctx {W : Type} (c : @fbw_ctx W) : Prop :=
  is_size (buf_len c) /\ is_size (buf_bytes c) /\ is_size (bytes_written c)
  /\ is_size (offset c) /\ is_size (available c).

(** Invariant 1 of the data model. *)
Definition within_capacity {W : Type} (c : @fbw_ctx W) : Prop :=
  bytes_written c + buf_bytes c <= available c.

(** The device size [fbw_init] computes: the regions' sizes summed, in
    [size_t] arithmetic. *)
Definition total_size (layout : list flash_pages_layout) : Z :=
  fold_left (fun t l => size_add t (size_mul (pages_count l) (pages_size l)))
    layout 0.

(** ** Notions for the properties of whole calls *)

Definition INT_MAX : Z := 2 ^ (SIZE_BITS - 1) - 1.

(** The [n] bytes at [data + from], as [memcpy] reads them. *)
Definition data_range (d : data_ptr) (from n : Z) : list byte :=
  map (fun i => d (from + Z.of_nat i)) (seq 0 (Z.to_nat n)).

(** The bytes handed to [flash_write], call after call. *)
Definition written (t : list event) : list byte :=
  flat_map (fun ev => match ev with EvWrite _ d => d | _ => [] end) t.

(** The offsets handed to [flash_write], call after call. *)
Definition write_offsets (t : list event) : list Z :=
  flat_map (fun ev => match ev with EvWrite o _ => [o] | _ => [] end) t.

(** A record of calls in which every erase and every write stands
    between a call that switches write protection off and one that
    switches it on again, and protection is switched for nothing else. *)
Inductive guarded : list event -> Prop :=
| guarded_nil : guarded []
| guarded_erase (off len : Z) (t : list event) :
    guarded t ->
    guarded (EvProtect false :: EvErase off len :: EvProtect true :: t)
| guarded_write (off : Z) (data : list byte) (t : list event) :
    guarded t ->
    guarded (EvProtect false :: EvWrite off data :: EvProtect true :: t)
| guarded_read (off len : Z) (t : list event) :
    guarded t -> guarded (EvRead off len :: t)
| guarded_hook (len off : Z) (t : list event) :
    guarded t -> guarded (EvHook len off :: t).

(** The world and call record the loop was left with. *)
Definition exit_env {W : Type} (out : @loop_exit W) : @env W :=
  match out with
  | LoopReturn _ _ e' => e'
  | LoopDone _ _ _ e' => e'
  end.

(** The small device given a staging buffer of no capacity. *)
Definition empty_buf_ctx : @fbw_ctx sim_world :=
  ctx_of_init
    (fbw_init (Some sim_ctx0) (Some sim_flash) (Some []) 0 16 0 None).

(** The small device with a flash write that always fails with
    [-EIO]. *)
Definition tiny_flash : @device sim_world :=
  {| page_layout := page_layout sim_flash;
     write_block_size := write_block_size sim_flash;
     flash_get_page_info_by_offs := sim_page_info;
     flash_erase := sim_erase;
     flash_write := fun _ _ _ w => (- EIO, w);
     flash_read := sim_read;
     flash_write_protection_set := sim_protect |}.

(** A stream on the device that refuses writes: a buffer about to be
    committed, and a write of twenty bytes. *)
Definition tiny_ctx : @fbw_ctx sim_world :=
  ctx_of_init
    (fbw_init (Some sim_ctx0) (Some tiny_flash) (Some (repeat x00 8)) 8 16 0
       None).

Definition refused_commit : Z * @fbw_ctx sim_world * @env sim_world :=
  flash_sync true (fill_buffer tiny_ctx write_buf 0 8) (sim_env 0).

Definition refused_write
  : option (Z * option (@fbw_ctx sim_world) * @env sim_world) :=
  fbw_write true 4 (Some tiny_ctx) (Some write_buf) 20 false (sim_env 0).

(** Twenty bytes written without [flush], the callback installed. *)
Definition hooked_write
  : option (Z * option (@fbw_ctx sim_world) * @env sim_world) :=
  fbw_write true 4 (Some (stream_ctx (Some fbw_callback))) (Some write_buf) 20
    false (sim_env 0).

(** After the page at 16, the page at 32 is erased, then the page at
    16 is asked for again. *)
Definition erase_other : Z * @fbw_ctx sim_world * @env sim_world :=
  fbw_erase (snd (fst erase_fresh)) 32 (snd erase_fresh).

Definition erase_back : Z * @fbw_ctx sim_world * @env sim_world :=
  fbw_erase (snd (fst erase_other)) 16 (snd erase_other).

(** Closed goals on the small device are decided by evaluation. *)
Ltac by_computation := vm_compute; repeat split; discriminate.

(** * Facts *)

(** ** Machine integers *)

Lemma SIZE_MOD_val : SIZE_MOD = 4294967296.
Proof. reflexivity. Qed.

Lemma to_size_range (z : Z) : is_size (to_size z).
Proof.
  unfold is_size, to_size, SIZE_MAX. rewrite SIZE_MOD_val.
  pose proof (Z.mod_pos_bound z 4294967296). lia.
Qed.

Lemma to_size_small (z : Z) : is_size z -> to_size z = z.
Proof.
  unfold is_size, to_size, SIZE_MAX. rewrite SIZE_MOD_val. intros H.
  apply Z.mod_small. lia.
Qed.

Lemma to_size_to_int (z : Z) : to_size (to_int z) = to_size z.
Proof.
  unfold to_size, to_int, INT_MIN, SIZE_BITS. rewrite SIZE_MOD_val.
  change (- 2 ^ (32 - 1)) with (- 2147483648).
  rewrite Zplus_mod, Zmod_mod, <- Zplus_mod. f_equal. lia.
Qed.

Lemma to_size_add_l (a b : Z) : to_size (to_size a + b) = to_size (a + b).
Proof. unfold to_size. now rewrite Zplus_mod_idemp_l. Qed.

Lemma to_size_add_r (a b : Z) : to_size (a + to_size b) = to_size (a + b).
Proof. unfold to_size. now rewrite Zplus_mod_idemp_r. Qed.

Lemma to_size_sub_l (a b : Z) : to_size (to_size a - b) = to_size (a - b).
Proof. unfold to_size. now rewrite Zminus_mod_idemp_l. Qed.

Lemma to_size_sub_r (a b : Z) : to_size (a - to_size b) = to_size (a - b).
Proof. unfold to_size. now rewrite Zminus_mod_idemp_r. Qed.

(** The [size_t] sum is the exact sum whenever that is representable. *)
Lemma size_add_exact (a b : Z) :
  0 <= a -> 0 <= b -> a + b <= SIZE_MAX -> size_add a b = a + b.
Proof. intros. apply to_size_small. unfold is_size. lia. Qed.

Lemma size_sub_exact (a b : Z) :
  is_size a -> 0 <= b <= a -> size_sub a b = a - b.
Proof. unfold is_size. intros. apply to_size_small. unfold is_size. lia. Qed.

Lemma size_sub_wrap (a b : Z) :
  is_size a -> is_size b -> a < b -> size_sub a b = SIZE_MOD + a - b.
Proof.
  unfold is_size, size_sub, to_size, SIZE_MAX. rewrite SIZE_MOD_val. intros.
  symmetry. apply Z.mod_unique with (q := -1); lia.
Qed.

Lemma nonzero_true (rc : Z) : nonzero rc = true <-> rc <> 0.
Proof. unfold nonzero. rewrite negb_true_iff, Z.eqb_neq. tauto. Qed.

Lemma nonzero_false (rc : Z) : nonzero rc = false <-> rc = 0.
Proof. unfold nonzero. rewrite negb_false_iff, Z.eqb_eq. tauto. Qed.

(** Conversions change a value by a multiple of 2^32 only. *)
Lemma to_size_ex (z : Z) : exists k, to_size z = z + k * SIZE_MOD.
Proof.
  exists (- (z / SIZE_MOD)). unfold to_size. rewrite Z.mod_eq; [ring|].
  now rewrite SIZE_MOD_val.
Qed.

Lemma to_int_ex (z : Z) : exists k, to_int z = z + k * SIZE_MOD.
Proof.
  unfold to_int. destruct (to_size_ex (z - INT_MIN)) as [k Hk].
  unfold to_size in Hk. exists k. rewrite Hk. ring.
Qed.

Lemma to_size_congr (a b k : Z) :
  a = b + k * SIZE_MOD -> to_size a = to_size b.
Proof. intros ->. unfold to_size. apply Z_mod_plus_full. Qed.

(** ** The record of calls *)

Lemma erases_app (s t : list event) : erases (s ++ t) = erases s ++ erases t.
Proof. apply flat_map_app. Qed.

Lemma writes_app (s t : list event) : writes (s ++ t) = writes s ++ writes t.
Proof. apply flat_map_app. Qed.

Lemma hooks_app (s t : list event) : hooks (s ++ t) = hooks s ++ hooks t.
Proof. apply flat_map_app. Qed.

Section EngineFacts.

Context {W : Type}.
Variable CONFIG_FBW_ERASE : bool.

Abbreviation ctx_t := (@fbw_ctx W).
Abbreviation env_t := (@env W).

(** ** fbw_erase *)

Lemma dev_protect_trace (d : @device W) (b : bool) (e : env_t) :
  trace (dev_protect d b e) = trace e ++ [EvProtect b].
Proof.
  unfold dev_protect. destruct (flash_write_protection_set d b (world e)).
  reflexivity.
Qed.

(** The three ways through [fbw_erase]: page lookup failed; page already
    marked; page marked, then erased between the two protection calls. *)
Lemma fbw_erase_cases (c c' : ctx_t) (off rc prc : Z) (page : flash_pages_info)
  (e e' : env_t) :
  flash_get_page_info_by_offs (fdev c) off = (prc, page) ->
  fbw_erase c off e = (rc, c', e') ->
  (prc <> 0 /\ rc = prc /\ c' = c /\ e' = e)
  \/ (prc = 0 /\ last_erased_page_start_offset c = start_offset page
      /\ rc = 0 /\ c' = c /\ e' = e)
  \/ (prc = 0 /\ last_erased_page_start_offset c <> start_offset page
      /\ c' = set_last_erased c (start_offset page)
      /\ trace e' = trace e ++ [EvProtect false;
                                EvErase (start_offset page) (size page);
                                EvProtect true]
      /\ rc = fst (flash_erase (fdev c) (start_offset page) (size page)
                     (world (dev_protect (fdev c) false e)))).
Proof.
  intros Hpage. unfold fbw_erase. rewrite Hpage.
  destruct (nonzero prc) eqn:Hprc.
  - intros [= <- <- <-]. left. now rewrite nonzero_true in Hprc.
  - apply nonzero_false in Hprc.
    destruct (last_erased_page_start_offset c =? start_offset page) eqn:Hlast.
    + intros [= <- <- <-]. right; left. now rewrite Z.eqb_eq in Hlast.
    + apply Z.eqb_neq in Hlast. intros H. right; right.
      cbn [fdev set_last_erased] in H.
      unfold dev_erase in H.
      destruct (flash_erase (fdev c) (start_offset page) (size page)
                  (world (dev_protect (fdev c) false e))) as [r w] eqn:Her.
      injection H as <- <- <-.
      rewrite dev_protect_trace. cbn [trace]. rewrite dev_protect_trace.
      rewrite <- !app_assoc. cbn [app fst]. auto.
Qed.

(** [fbw_erase] touches no field but the marker, and makes no write and
    no callback call. *)
Lemma fbw_erase_frame (c c' : ctx_t) (off rc : Z) (e e' : env_t) :
  fbw_erase c off e = (rc, c', e') ->
  c' = set_last_erased c (last_erased_page_start_offset c')
  /\ exists evs, trace e' = trace e ++ evs
                 /\ writes evs = [] /\ hooks evs = [].
Proof.
  intros H.
  destruct (flash_get_page_info_by_offs (fdev c) off) as [prc page] eqn:Hp.
  destruct (fbw_erase_cases _ _ _ _ _ _ _ _ Hp H)
    as [(_ & _ & -> & ->) | [(_ & _ & _ & -> & ->) | (_ & _ & -> & Ht & _)]].
  - split; [now destruct c|]. exists []. now rewrite app_nil_r.
  - split; [now destruct c|]. exists []. now rewrite app_nil_r.
  - split; [reflexivity|]. eexists. split; [exact Ht|]. split; reflexivity.
Qed.

(** ** flash_sync *)

(** Every way through [flash_sync] is one of two: it stops before line
    91 with a non-zero code, the counters as they were and no callback
    call; or it reaches lines 91-92, after exactly one flash write and,
    when a callback is installed, exactly one call of it. *)
Lemma flash_sync_cases (c c' : ctx_t) (rc : Z) (e e' : env_t) :
  flash_sync CONFIG_FBW_ERASE c e = (rc, c', e') ->
  (buf_len c' = buf_len c /\ fdev c' = fdev c /\ offset c' = offset c
   /\ available c' = available c /\ callback c' = callback c)
  /\ exists evs, trace e' = trace e ++ evs
     /\ ((rc <> 0
          /\ bytes_written c' = bytes_written c
          /\ buf_bytes c' = buf_bytes c
          /\ hooks evs = [] /\ (length (writes evs) <= 1)%nat)
         \/ (bytes_written c' = size_add (bytes_written c) (buf_bytes c)
             /\ buf_bytes c' = 0
             /\ length (writes evs) = 1%nat
             /\ match callback c with
                | Some _ =>
                    hooks evs
                    = [(buf_bytes c, size_add (offset c) (bytes_written c))]
                | None => hooks evs = [] /\ rc = 0
                end)).
Proof.
  unfold flash_sync.
  destruct (if CONFIG_FBW_ERASE
            then fbw_erase c
                   (to_int (size_add (size_add (offset c) (bytes_written c))
                              (buf_bytes c))) e
            else (0, c, e)) as [[r1 c1] e1] eqn:Hstep.
  assert (Hfr : c1 = set_last_erased c (last_erased_page_start_offset c1)
                /\ exists evs1, trace e1 = trace e ++ evs1
                                /\ writes evs1 = [] /\ hooks evs1 = []).
  { destruct CONFIG_FBW_ERASE.
    - now apply fbw_erase_frame in Hstep.
    - injection Hstep as <- <- <-. split; [now destruct c|].
      exists []. now rewrite app_nil_r. }
  destruct Hfr as [Hc1 (evs1 & Ht1 & Hw1 & Hh1)].
  destruct (CONFIG_FBW_ERASE && (r1 <? 0)) eqn:Hneg.
  - (* the erase step failed *)
    intros [= <- <- <-]. rewrite Hc1. cbn. split; [tauto|].
    exists evs1. split; [exact Ht1|]. left.
    apply andb_prop in Hneg. destruct Hneg as [_ Hneg].
    apply Z.ltb_lt in Hneg. rewrite Hh1, Hw1. cbn.
    repeat split; try reflexivity; lia.
  - clear Hneg Hstep. rewrite Hc1. cbn [fdev buf buf_bytes callback set_last_erased].
    unfold dev_write.
    destruct (flash_write (fdev c)
                (to_int (size_add (offset c) (bytes_written c)))
                (firstn (Z.to_nat (buf_bytes c)) (buf c)) (buf_bytes c)
                (world (dev_protect (fdev c) false e1))) as [r2 w2].
    destruct (nonzero r2) eqn:Hr2.
    + (* the flash write failed *)
      intros [= <- <- <-]. cbn. split; [tauto|].
      eexists. split.
      { rewrite dev_protect_trace. cbn [trace]. rewrite dev_protect_trace, Ht1.
        rewrite <- !app_assoc. reflexivity. }
      left. apply nonzero_true in Hr2.
      rewrite !hooks_app, !writes_app, Hh1, Hw1. cbn.
      repeat split; try reflexivity; try assumption; lia.
    + apply nonzero_false in Hr2. subst r2.
      destruct (callback c) as [cb|] eqn:Hcb.
      * unfold dev_read.
        match goal with
        | |- context [flash_read ?d ?o ?b ?n ?w] =>
            destruct (flash_read d o b n w) as [[r3 got] w3]
        end.
        cbn [set_buf buf buf_bytes].
        destruct (nonzero r3) eqn:Hr3.
        -- (* the read-back failed *)
           intros [= <- <- <-]. cbn. split; [rewrite Hcb; tauto|].
           eexists. split.
           { rewrite dev_protect_trace. cbn [trace].
             rewrite dev_protect_trace, Ht1. rewrite <- !app_assoc.
             reflexivity. }
           left. apply nonzero_true in Hr3.
           rewrite !hooks_app, !writes_app, Hh1, Hw1. cbn.
           repeat split; try reflexivity; try assumption; lia.
        -- (* the callback ran *)
           unfold call_hook.
           match goal with
           | |- context [cb ?b ?n ?o ?w] => destruct (cb b n o w) as [r4 w4]
           end.
           intros [= <- <- <-]. cbn. split; [rewrite Hcb; tauto|].
           eexists. split.
           { rewrite dev_protect_trace. cbn [trace].
             rewrite dev_protect_trace, Ht1. rewrite <- !app_assoc.
             reflexivity. }
           right. rewrite !hooks_app, !writes_app, Hh1, Hw1. cbn.
           repeat split; reflexivity.
      * (* no callback installed *)
        intros [= <- <- <-]. cbn. split; [rewrite Hcb; tauto|].
        eexists. split.
        { rewrite dev_protect_trace. cbn [trace].
          rewrite dev_protect_trace, Ht1. rewrite <- !app_assoc.
          reflexivity. }
        right. rewrite !hooks_app, !writes_app, Hh1, Hw1. cbn.
        repeat split; reflexivity.
Qed.

(** C2.  A successful commit with a callback installed calls the
    callback exactly once; the call's length is the number of bytes the
    commit adds to [bytes_written] (the [buf_bytes] the commit started
    with: [buf_len] when [fbw_write]'s loop has just filled the buffer,
    the residue on a flush) and its offset is [offset + bytes_written]
    as the code computes it before the commit. *)
Theorem flash_sync_hook_once (c c' : ctx_t) (cb : fbw_callback_t)
  (e e' : env_t) :
  callback c = Some cb ->
  flash_sync CONFIG_FBW_ERASE c e = (0, c', e') ->
  exists evs,
    trace e' = trace e ++ evs
    /\ hooks evs = [(buf_bytes c, size_add (offset c) (bytes_written c))]
    /\ bytes_written c' = size_add (bytes_written c) (buf_bytes c).
Proof.
  intros Hcb Hsync.
  destruct (flash_sync_cases _ _ _ _ _ Hsync) as [_ (evs & Ht & Hcase)].
  exists evs. split; [exact Ht|].
  destruct Hcase as [(Hrc & _) | (Hbw & _ & _ & Hh)]; [congruence|].
  rewrite Hcb in Hh. auto.
Qed.

(** ** fbw_erase: the marker *)

(** C10.  The marker is set before the driver is asked to erase: when
    the driver's erase fails, the marker already names the page, and a
    later call for any offset of that page returns 0 and asks the driver
    for nothing. *)
Theorem fbw_erase_failed_page_not_retried (c c' : ctx_t) (off off2 rc : Z)
  (page page2 : flash_pages_info) (e e' e2 : env_t) :
  flash_get_page_info_by_offs (fdev c) off = (0, page) ->
  fbw_erase c off e = (rc, c', e') ->
  rc <> 0 ->
  flash_get_page_info_by_offs (fdev c) off2 = (0, page2) ->
  start_offset page2 = start_offset page ->
  last_erased_page_start_offset c' = start_offset page
  /\ erases (trace e')
     = erases (trace e) ++ [(start_offset page, size page)]
  /\ fbw_erase c' off2 e2 = (0, c', e2).
Proof.
  intros Hp He Hrc Hp2 Hsame.
  destruct (fbw_erase_cases _ _ _ _ _ _ _ _ Hp He)
    as [(Hprc & _) | [(_ & _ & Hz & _) | (_ & Hne & -> & Ht & _)]];
    [congruence | congruence |].
  split; [reflexivity|]. split.
  - rewrite Ht, erases_app. reflexivity.
  - unfold fbw_erase. cbn [fdev set_last_erased last_erased_page_start_offset].
    rewrite Hp2, Hsame. cbn. now rewrite Z.eqb_refl.
Qed.

(** C7, as the code has it.  Of two consecutive calls for offsets of one
    page, the second returns 0 and changes nothing; the first erases the
    page unless the marker named it already.  So the two calls make one
    erase when the marker differed from the page start before the first
    call, and none when it did not. *)
Theorem fbw_erase_twice_same_page (c c1 c2 : ctx_t) (off1 off2 rc1 rc2 : Z)
  (page1 page2 : flash_pages_info) (e e1 e2 : env_t) :
  flash_get_page_info_by_offs (fdev c) off1 = (0, page1) ->
  flash_get_page_info_by_offs (fdev c) off2 = (0, page2) ->
  start_offset page2 = start_offset page1 ->
  fbw_erase c off1 e = (rc1, c1, e1) ->
  fbw_erase c1 off2 e1 = (rc2, c2, e2) ->
  rc2 = 0 /\ c2 = c1 /\ e2 = e1
  /\ exists evs,
       trace e2 = trace e ++ evs
       /\ erases evs
          = if last_erased_page_start_offset c =? start_offset page1
            then []
            else [(start_offset page1, size page1)].
Proof.
  intros Hp1 Hp2 Hsame He1 He2.
  assert (Hfdev : fdev c1 = fdev c /\
                  last_erased_page_start_offset c1 = start_offset page1 /\
                  exists evs,
                    trace e1 = trace e ++ evs
                    /\ erases evs
                       = if last_erased_page_start_offset c
                            =? start_offset page1
                         then [] else [(start_offset page1, size page1)]).
  { destruct (fbw_erase_cases _ _ _ _ _ _ _ _ Hp1 He1)
      as [(Hprc & _) | [(_ & Heq & _ & -> & ->) | (_ & Hne & -> & Ht & _)]].
    - congruence.
    - repeat split; try assumption. exists [].
      rewrite app_nil_r. split; [reflexivity|].
      apply Z.eqb_eq in Heq. now rewrite Heq.
    - repeat split. eexists. split; [exact Ht|].
      apply Z.eqb_neq in Hne. now rewrite Hne. }
  destruct Hfdev as (Hd & Hmark & evs & Ht & Hev).
  rewrite <- Hd in Hp2.
  destruct (fbw_erase_cases _ _ _ _ _ _ _ _ Hp2 He2)
    as [(Hprc & _) | [(_ & _ & -> & -> & ->) | (_ & Hne & _)]].
  - congruence.
  - repeat split. exists evs. auto.
  - congruence.
Qed.

(** ** fbw_init *)

Lemma layout_scan_too_small (buf_len : Z) (layout : list flash_pages_layout) :
  (exists l, In l layout /\ pages_size l < buf_len) ->
  forall t, layout_scan buf_len layout t = inl (- EFAULT).
Proof.
  induction layout as [|l layout IH]; intros (x & Hin & Hlt) t.
  - destruct Hin.
  - cbn [layout_scan]. destruct (buf_len >? pages_size l) eqn:Hgt;
      [reflexivity|].
    apply IH. destruct Hin as [-> | Hin]; [|eauto].
    rewrite Z.gtb_ltb, Z.ltb_ge in Hgt. lia.
Qed.

Lemma layout_scan_error (buf_len : Z) (layout : list flash_pages_layout) :
  forall t r, layout_scan buf_len layout t = inl r -> r = -14.
Proof.
  induction layout as [|l layout IH]; intros t r; cbn [layout_scan];
    [discriminate|].
  destruct (buf_len >? pages_size l); [now intros [= <-] | apply IH].
Qed.

Lemma layout_scan_fits (buf_len : Z) (layout : list flash_pages_layout) :
  (forall l, In l layout -> buf_len <= pages_size l) ->
  forall t,
    layout_scan buf_len layout t
    = inr (fold_left
             (fun t l => size_add t (size_mul (pages_count l) (pages_size l)))
             layout t).
Proof.
  induction layout as [|l layout IH]; intros Hall t; [reflexivity|].
  cbn [layout_scan fold_left].
  destruct (buf_len >? pages_size l) eqn:Hgt.
  - rewrite Z.gtb_ltb, Z.ltb_lt in Hgt.
    specialize (Hall l (or_introl eq_refl)). lia.
  - apply IH. intros x Hx. apply Hall. now right.
Qed.

(** C4.  With the three references present: a region whose page is
    smaller than [buf_len] makes [fbw_init] return [-EFAULT]; when no
    region is, and the bounds and alignment tests of line 172-173 pass,
    [fbw_init] returns 0 with the counters zeroed. *)
Theorem fbw_init_page_size_check (c : ctx_t) (d : @device W) (b : list byte)
  (blen offset size : Z) (cb : option fbw_callback_t) :
  ((exists l, In l (page_layout d) /\ pages_size l < blen) ->
   fbw_init (Some c) (Some d) (Some b) blen offset size cb
   = Some (- EFAULT, Some c))
  /\ ((forall l, In l (page_layout d) -> blen <= pages_size l) ->
      size_add offset size <= total_size (page_layout d) ->
      write_block_size d <> 0 ->
      offset mod write_block_size d = 0 ->
      exists c',
        fbw_init (Some c) (Some d) (Some b) blen offset size cb
        = Some (0, Some c')
        /\ buf_len c' = blen
        /\ bytes_written c' = 0 /\ buf_bytes c' = 0).
Proof.
  split.
  - intros Hsmall. unfold fbw_init.
    now rewrite (layout_scan_too_small _ _ Hsmall).
  - intros Hfit Hbound Hwbs Halign. unfold fbw_init.
    rewrite (layout_scan_fits _ _ Hfit). fold (total_size (page_layout d)).
    replace (size_add offset size >? total_size (page_layout d)) with false
      by (symmetry; rewrite Z.gtb_ltb; apply Z.ltb_ge; lia).
    apply Z.eqb_neq in Hwbs. rewrite Hwbs, Halign. cbn [nonzero Z.eqb negb].
    eexists. split; [reflexivity|]. cbn. auto.
Qed.

(** C9.  Whenever [fbw_init] returns an error, [*ctx] is as it was. *)
Theorem fbw_init_error_leaves_ctx (ctx ctx' : option ctx_t)
  (fdev : option (@device W)) (buf : option (list byte))
  (buf_len offset size rc : Z) (cb : option fbw_callback_t) :
  fbw_init ctx fdev buf buf_len offset size cb = Some (rc, ctx') ->
  rc <> 0 ->
  ctx' = ctx.
Proof.
  unfold fbw_init. intros H Hrc.
  destruct ctx as [c|], fdev as [d|], buf as [b|];
    try (injection H as <- <-; reflexivity).
  destruct (layout_scan buf_len (page_layout d) 0) as [r|t].
  - now injection H as <- <-.
  - destruct (size_add offset size >? t); [now injection H as <- <-|].
    destruct (write_block_size d =? 0); [discriminate|].
    destruct (nonzero (offset mod write_block_size d));
      injection H as <- <-; [reflexivity | congruence].
Qed.

(** ** fbw_write: the loop *)

Lemma to_size_buf_empty_bytes (c : ctx_t) :
  to_size (buf_empty_bytes c) = size_sub (buf_len c) (buf_bytes c).
Proof.
  unfold buf_empty_bytes. rewrite to_size_to_int.
  apply to_size_small, to_size_range.
Qed.

Lemma to_size_int_add (p n : Z) :
  to_size (int_add p n) = to_size (to_size p + to_size n).
Proof.
  unfold int_add. now rewrite to_size_to_int, to_size_add_l, to_size_add_r.
Qed.

(** One turn of the loop: the condition is false and the loop is left;
    or the buffer is filled and committed, and the commit either makes
    the function return or lets the loop go on with [rc = 0]. *)
Lemma write_loop_step (fuel : nat) (c : ctx_t) (d : data_ptr)
  (len processed rc : Z) (e : env_t) (out : loop_exit) :
  write_loop CONFIG_FBW_ERASE (S fuel) c d len processed rc e = Some out ->
  (size_sub len (to_size processed) < to_size (buf_empty_bytes c)
   /\ out = LoopDone rc c processed e)
  \/ (to_size (buf_empty_bytes c) <= size_sub len (to_size processed)
      /\ exists r c3 e3,
           flash_sync CONFIG_FBW_ERASE
             (fill_buffer c d processed (buf_empty_bytes c)) e = (r, c3, e3)
           /\ ((r <> 0 /\ out = LoopReturn r c3 e3)
               \/ (r = 0
                   /\ write_loop CONFIG_FBW_ERASE fuel c3 d len
                        (int_add processed (buf_empty_bytes c)) 0 e3
                      = Some out))).
Proof.
  cbn [write_loop].
  destruct (size_sub len (to_size processed) >=? to_size (buf_empty_bytes c))
    eqn:Hcond.
  - rewrite Z.geb_leb, Z.leb_le in Hcond. intros H. right. split; [exact Hcond|].
    destruct (flash_sync CONFIG_FBW_ERASE
                (fill_buffer c d processed (buf_empty_bytes c)) e)
      as [[r c3] e3].
    exists r, c3, e3. split; [reflexivity|].
    destruct (nonzero r) eqn:Hr.
    + left. apply nonzero_true in Hr. now injection H as <-.
    + right. apply nonzero_false in Hr. now subst r.
  - rewrite Z.geb_leb, Z.leb_gt in Hcond. intros [= <-]. now left.
Qed.

(** The loop when the exact sum [bytes_written + buf_bytes + len] is
    representable: nothing wraps, and the bytes still to take plus the
    two counters stay what they were. *)
Lemma write_loop_exact (fuel : nat) :
  forall (c : ctx_t) (d : data_ptr) (len processed rc : Z) (e : env_t)
         (out : loop_exit),
    is_size (buf_len c) -> 0 <= buf_bytes c -> 0 <= bytes_written c ->
    is_size len -> to_size processed <= len ->
    bytes_written c + buf_bytes c + (len - to_size processed) <= SIZE_MAX ->
    write_loop CONFIG_FBW_ERASE fuel c d len processed rc e = Some out ->
    match out with
    | LoopReturn r c' e' =>
        r <> 0 /\ available c' = available c
        /\ 0 <= bytes_written c' /\ 0 <= buf_bytes c'
        /\ bytes_written c' + buf_bytes c'
           <= bytes_written c + buf_bytes c + (len - to_size processed)
    | LoopDone r c' processed' e' =>
        available c' = available c
        /\ 0 <= bytes_written c' /\ 0 <= buf_bytes c'
        /\ to_size processed' <= len
        /\ bytes_written c' + buf_bytes c' + (len - to_size processed')
           = bytes_written c + buf_bytes c + (len - to_size processed)
    end.
Proof.
  induction fuel as [|fuel IH]; intros c d len processed rc e out
    HL Hbb Hbw Hlen HP Hsum Hrun; [discriminate|].
  assert (HP0 : 0 <= to_size processed) by apply to_size_range.
  assert (Hrem : size_sub len (to_size processed) = len - to_size processed).
  { apply size_sub_exact; [assumption | lia]. }
  destruct (write_loop_step _ _ _ _ _ _ _ _ Hrun)
    as [(_ & ->) | (Hcond & r & c3 & e3 & Hsync & Hnext)].
  - repeat split; try assumption; reflexivity.
  - rewrite to_size_buf_empty_bytes, Hrem in Hcond.
    (* the buffer is not over-full: otherwise the free space wraps to
       more than is left to take *)
    assert (Hfit : buf_bytes c <= buf_len c).
    { destruct (Z_le_gt_dec (buf_bytes c) (buf_len c)) as [|Hgt]; [assumption|].
      rewrite size_sub_wrap in Hcond; unfold is_size, SIZE_MAX in *; lia. }
    rewrite size_sub_exact in Hcond by (unfold is_size in *; lia).
    destruct (flash_sync_cases _ _ _ _ _ Hsync)
      as [(HfL & _ & _ & Hfa & _) (evs & _ & Hcase)].
    cbn [fill_buffer set_buf set_buf_bytes buf_len buf_bytes bytes_written
                     available] in HfL, Hfa, Hcase.
    assert (Hadd : size_add (bytes_written c) (buf_len c)
                   = bytes_written c + buf_len c).
    { apply size_add_exact; unfold is_size in *; lia. }
    destruct Hnext as [(Hr & ->) | (-> & Hrec)].
    + split; [exact Hr|]. split; [exact Hfa|].
      destruct Hcase as [(_ & -> & -> & _) | (-> & -> & _)];
        rewrite ?Hadd; unfold is_size in *; lia.
    + destruct Hcase as [(Hr & _) | (Hbw3 & Hbb3 & _)]; [congruence|].
      rewrite Hadd in Hbw3.
      assert (HP' : to_size (int_add processed (buf_empty_bytes c))
                    = to_size processed + (buf_len c - buf_bytes c)).
      { rewrite to_size_int_add, to_size_buf_empty_bytes.
        rewrite size_sub_exact by (unfold is_size in *; lia).
        apply to_size_small. unfold is_size in *. lia. }
      specialize (IH c3 d len (int_add processed (buf_empty_bytes c)) 0 e3 out).
      rewrite HfL, Hbw3, Hbb3, HP', Hfa in IH.
      assert (Hout := IH HL ltac:(lia) ltac:(unfold is_size in *; lia) Hlen
                        ltac:(lia) ltac:(lia) Hrec).
      destruct out as [r' c' e' | r' c' p' e'].
      * destruct Hout as (? & ? & ? & ? & ?). repeat split; try assumption. lia.
      * destruct Hout as (? & ? & ? & ? & ?). repeat split; try assumption. lia.
Qed.

(** The loop in [size_t] arithmetic, with nothing assumed of the
    context: leaving through [return rc] means [rc] is not 0, and a
    commit moves [buf_bytes] into [bytes_written] while [processed]
    grows by what was copied. *)
Lemma write_loop_mod (fuel : nat) :
  forall (c : ctx_t) (d : data_ptr) (len processed rc : Z) (e : env_t)
         (out : loop_exit),
    is_size len -> to_size processed <= len ->
    write_loop CONFIG_FBW_ERASE fuel c d len processed rc e = Some out ->
    match out with
    | LoopReturn r _ _ => r <> 0
    | LoopDone r c' processed' e' =>
        to_size processed' <= len
        /\ to_size (bytes_written c' + buf_bytes c' - processed')
           = to_size (bytes_written c + buf_bytes c - processed)
    end.
Proof.
  induction fuel as [|fuel IH]; intros c d len processed rc e out
    Hlen HP Hrun; [discriminate|].
  assert (HP0 : 0 <= to_size processed) by apply to_size_range.
  destruct (write_loop_step _ _ _ _ _ _ _ _ Hrun)
    as [(_ & ->) | (Hcond & r & c3 & e3 & Hsync & Hnext)].
  - split; [assumption | reflexivity].
  - rewrite size_sub_exact in Hcond by (assumption || lia).
    destruct Hnext as [(Hr & ->) | (-> & Hrec)]; [exact Hr|].
    destruct (flash_sync_cases _ _ _ _ _ Hsync) as [_ (evs & _ & Hcase)].
    destruct Hcase as [(Hr & _) | (Hbw3 & Hbb3 & _)]; [congruence|].
    cbn [fill_buffer set_buf set_buf_bytes buf_len buf_bytes bytes_written]
      in Hbw3.
    assert (HE0 : 0 <= to_size (buf_empty_bytes c)) by apply to_size_range.
    assert (HP' : to_size (int_add processed (buf_empty_bytes c)) <= len).
    { rewrite to_size_int_add, to_size_small; unfold is_size in *; lia. }
    specialize (IH c3 d len _ 0 e3 out Hlen HP' Hrec).
    destruct out as [r' c' e' | r' c' p' e']; [exact IH|].
    destruct IH as [Hp' Hsum]. split; [exact Hp'|].
    rewrite Hsum, Hbw3, Hbb3. unfold int_add, buf_empty_bytes, size_add, size_sub.
    destruct (to_size_ex (bytes_written c + buf_len c)) as [k1 ->].
    destruct (to_size_ex (buf_len c - buf_bytes c)) as [k2 ->].
    destruct (to_int_ex (buf_len c - buf_bytes c + k2 * SIZE_MOD)) as [k3 ->].
    destruct (to_int_ex (processed + (buf_len c - buf_bytes c + k2 * SIZE_MOD
                                      + k3 * SIZE_MOD))) as [k4 ->].
    apply to_size_congr with (k := k1 - k2 - k3 - k4). ring.
Qed.

Lemma place_rest_mod (c : ctx_t) (d : data_ptr) (len processed : Z) :
  is_size len -> to_size processed <= len ->
  to_size (bytes_written (place_rest c d len processed)
           + buf_bytes (place_rest c d len processed))
  = to_size (bytes_written c + buf_bytes c - processed + len).
Proof.
  intros Hlen HP. unfold place_rest.
  destruct (to_size processed <? len) eqn:Hlt.
  - cbn. unfold size_add, size_sub.
    destruct (to_size_ex processed) as [k1 ->].
    destruct (to_size_ex (len - (processed + k1 * SIZE_MOD))) as [k2 ->].
    destruct (to_size_ex (buf_bytes c
                          + (len - (processed + k1 * SIZE_MOD)
                             + k2 * SIZE_MOD))) as [k3 ->].
    apply to_size_congr with (k := k2 + k3 - k1). ring.
  - apply Z.ltb_ge in Hlt. assert (Heq : to_size processed = len) by lia.
    destruct (to_size_ex processed) as [k1 Hk1].
    apply to_size_congr with (k := - k1). lia.
Qed.

(** ** fbw_write: the counters *)

(** The capacity test of line 107 is the exact one as long as the exact
    sum is representable. *)
Lemma capacity_test_exact (c : ctx_t) (len : Z) :
  wf_ctx c -> is_size len ->
  bytes_written c + buf_bytes c + len <= SIZE_MAX ->
  size_add (size_add (bytes_written c) (buf_bytes c)) len
  = bytes_written c + buf_bytes c + len.
Proof.
  intros (_ & Hbb & Hbw & _) Hlen Hfit. unfold is_size in *.
  rewrite (size_add_exact (bytes_written c)) by lia.
  apply size_add_exact; lia.
Qed.

Lemma fbw_write_no_space (fuel : nat) (c : ctx_t) (d : data_ptr) (len : Z)
  (flush : bool) (e : env_t) :
  wf_ctx c -> is_size len ->
  bytes_written c + buf_bytes c + len <= SIZE_MAX ->
  available c < bytes_written c + buf_bytes c + len ->
  fbw_write CONFIG_FBW_ERASE fuel (Some c) (Some d) len flush e
  = Some (- ENOMEM, Some c, e).
Proof.
  intros Hwf Hlen Hfit Hover. unfold fbw_write.
  rewrite (capacity_test_exact c len Hwf Hlen Hfit).
  replace (bytes_written c + buf_bytes c + len >? available c) with true;
    [reflexivity|].
  symmetry. rewrite Z.gtb_ltb. now apply Z.ltb_lt.
Qed.

(** A write whose exact sum is representable, however it ends: refused
    with the context untouched, or run with the counters' sum never above
    the sum before the call plus [len], and equal to it on success. *)
Lemma fbw_write_exact (fuel : nat) (c c' : ctx_t) (d : data_ptr) (len rc : Z)
  (flush : bool) (e e' : env_t) :
  wf_ctx c -> is_size len ->
  bytes_written c + buf_bytes c + len <= SIZE_MAX ->
  fbw_write CONFIG_FBW_ERASE fuel (Some c) (Some d) len flush e
  = Some (rc, Some c', e') ->
  available c' = available c
  /\ 0 <= bytes_written c' /\ 0 <= buf_bytes c'
  /\ ((rc = - ENOMEM /\ c' = c
       /\ available c < bytes_written c + buf_bytes c + len)
      \/ (bytes_written c + buf_bytes c + len <= available c
          /\ bytes_written c' + buf_bytes c'
             <= bytes_written c + buf_bytes c + len
          /\ (rc = 0 ->
              bytes_written c' + buf_bytes c'
              = bytes_written c + buf_bytes c + len))).
Proof.
  intros Hwf Hlen Hfit Hrun.
  pose proof (capacity_test_exact c len Hwf Hlen Hfit) as Htest.
  destruct Hwf as (HL & Hbb & Hbw & _).
  unfold fbw_write in Hrun. rewrite Htest in Hrun.
  destruct (bytes_written c + buf_bytes c + len >? available c) eqn:Hcap.
  { injection Hrun as <- <- _. rewrite Z.gtb_ltb, Z.ltb_lt in Hcap.
    unfold is_size in *. repeat split; try lia. left. auto. }
  rewrite Z.gtb_ltb, Z.ltb_ge in Hcap.
  destruct (write_loop CONFIG_FBW_ERASE fuel c d len 0 0 e)
    as [out|] eqn:Hloop; [|discriminate].
  assert (Hz : to_size 0 = 0) by reflexivity.
  assert (Hout := write_loop_exact fuel c d len 0 0 e out HL
                    ltac:(unfold is_size in *; lia)
                    ltac:(unfold is_size in *; lia) Hlen
                    ltac:(unfold is_size in *; rewrite Hz; lia)
                    ltac:(rewrite Hz; lia) Hloop).
  rewrite Hz in Hout.
  destruct out as [r c1 e1 | r c1 p1 e1].
  { injection Hrun as <- <- _. destruct Hout as (Hr & Ha & ? & ? & ?).
    repeat split; try assumption. right. repeat split; try lia. }
  destruct Hout as (Ha1 & Hbw1 & Hbb1 & Hp1 & Hsum).
  assert (Hp0 : 0 <= to_size p1) by apply to_size_range.
  assert (Hc2 : bytes_written (place_rest c1 d len p1)
                + buf_bytes (place_rest c1 d len p1)
                = bytes_written c + buf_bytes c + len
                /\ 0 <= bytes_written (place_rest c1 d len p1)
                /\ 0 <= buf_bytes (place_rest c1 d len p1)
                /\ available (place_rest c1 d len p1) = available c).
  { unfold place_rest. destruct (to_size p1 <? len) eqn:Hlt.
    - apply Z.ltb_lt in Hlt. cbn.
      rewrite size_sub_exact by (assumption || lia).
      rewrite size_add_exact by lia. lia.
    - apply Z.ltb_ge in Hlt. lia. }
  set (c2 := place_rest c1 d len p1) in *.
  destruct Hc2 as (Hc2 & Hbw2 & Hbb2 & Ha2).
  destruct (flush && (buf_bytes c2 >? 0)).
  - destruct (flash_sync CONFIG_FBW_ERASE c2 e1) as [[r3 c3] e3] eqn:Hsync.
    injection Hrun as <- <- _.
    destruct (flash_sync_cases _ _ _ _ _ Hsync)
      as [(_ & _ & _ & Ha3 & _) (evs & _ & Hcase)].
    rewrite Ha3, Ha2.
    destruct Hcase as [(_ & -> & -> & _) | (-> & -> & _)].
    + repeat split; try assumption. right. repeat split; lia.
    + rewrite size_add_exact by lia.
      repeat split; lia.
  - injection Hrun as _ <- _.
    repeat split; try assumption. right. repeat split; lia.
Qed.

(** C5.  After a write that returns 0, [bytes_written + buf_bytes] is the
    sum before the call plus [len]: as [size_t] values always, and as
    exact integers whenever the sum before the call plus [len] is
    representable in a [size_t]. *)
Theorem fbw_write_accounting (fuel : nat) (c c' : ctx_t) (d : data_ptr)
  (len : Z) (flush : bool) (e e' : env_t) :
  wf_ctx c -> is_size len ->
  fbw_write CONFIG_FBW_ERASE fuel (Some c) (Some d) len flush e
  = Some (0, Some c', e') ->
  size_add (bytes_written c') (buf_bytes c')
  = size_add (size_add (bytes_written c) (buf_bytes c)) len
  /\ (bytes_written c + buf_bytes c + len <= SIZE_MAX ->
      bytes_written c' + buf_bytes c' = bytes_written c + buf_bytes c + len).
Proof.
  intros Hwf Hlen Hrun.
  assert (Hmod : size_add (bytes_written c') (buf_bytes c')
                 = size_add (size_add (bytes_written c) (buf_bytes c)) len).
  { unfold fbw_write in Hrun.
    destruct (size_add (size_add (bytes_written c) (buf_bytes c)) len
              >? available c); [discriminate|].
    destruct (write_loop CONFIG_FBW_ERASE fuel c d len 0 0 e)
      as [out|] eqn:Hloop; [|discriminate].
    assert (Hout := write_loop_mod fuel c d len 0 0 e out Hlen
                      ltac:(unfold is_size in Hlen; cbn; lia) Hloop).
    destruct out as [r c1 e1 | r c1 p1 e1].
    { injection Hrun as -> _ _. congruence. }
    destruct Hout as [Hp1 Hsum].
    pose proof (place_rest_mod c1 d len p1 Hlen Hp1) as Hrest.
    set (c2 := place_rest c1 d len p1) in *.
    assert (Hc2 : to_size (bytes_written c2 + buf_bytes c2)
                  = to_size (bytes_written c + buf_bytes c + len)).
    { rewrite Hrest.
      destruct (to_size_ex (bytes_written c1 + buf_bytes c1 - p1)) as [k1 Hk1].
      destruct (to_size_ex (bytes_written c + buf_bytes c - 0)) as [k2 Hk2].
      apply to_size_congr with (k := k2 - k1). lia. }
    assert (Hgoal : forall x : ctx_t,
               to_size (bytes_written x + buf_bytes x)
               = to_size (bytes_written c2 + buf_bytes c2) ->
               size_add (bytes_written x) (buf_bytes x)
               = size_add (size_add (bytes_written c) (buf_bytes c)) len).
    { intros x Hx. unfold size_add. rewrite to_size_add_l. congruence. }
    destruct (flush && (buf_bytes c2 >? 0)).
    - destruct (flash_sync CONFIG_FBW_ERASE c2 e1) as [[r3 c3] e3] eqn:Hsync.
      injection Hrun as -> -> _.
      destruct (flash_sync_cases _ _ _ _ _ Hsync) as [_ (evs & _ & Hcase)].
      destruct Hcase as [(Hr & _) | (-> & -> & _)]; [congruence|].
      unfold size_add.
      rewrite Z.add_0_r, (to_size_small _ (to_size_range _)), Hc2.
      now rewrite to_size_add_l.
    - injection Hrun as _ -> _. now apply Hgoal. }
  split; [exact Hmod|]. intros Hfit.
  destruct (fbw_write_exact fuel c c' d len 0 flush e e' Hwf Hlen Hfit Hrun)
    as (_ & _ & _ & [(Hrc & _) | (_ & _ & Heq)]).
  - discriminate Hrc.
  - now apply Heq.
Qed.

(** ** fbw_write: the number of commits *)

(** The loop on a context whose buffer is not over-full: it commits
    once per [buf_len] bytes of (bytes buffered + bytes still to take),
    and leaves less than a buffer to be placed. *)
Lemma write_loop_commits (fuel : nat) :
  forall (c c' : ctx_t) (d : data_ptr) (len processed processed' rc r : Z)
         (e e' : env_t),
    is_size (buf_len c) -> 0 < buf_len c -> 0 <= buf_bytes c <= buf_len c ->
    is_size len -> to_size processed <= len ->
    write_loop CONFIG_FBW_ERASE fuel c d len processed rc e
    = Some (LoopDone r c' processed' e') ->
    buf_len c' = buf_len c /\ to_size processed' <= len /\ 0 <= buf_bytes c'
    /\ exists evs,
         trace e' = trace e ++ evs
         /\ Z.of_nat (length (writes evs))
            = (buf_bytes c + (len - to_size processed)) / buf_len c
         /\ buf_bytes c' + (len - to_size processed')
            = (buf_bytes c + (len - to_size processed)) mod buf_len c.
Proof.
  induction fuel as [|fuel IH]; intros c c' d len processed processed' rc r
    e e' HL Hpos Hbb Hlen HP Hrun; [discriminate|].
  assert (HP0 : 0 <= to_size processed) by apply to_size_range.
  assert (HE : to_size (buf_empty_bytes c) = buf_len c - buf_bytes c).
  { rewrite to_size_buf_empty_bytes. apply size_sub_exact; [assumption|lia]. }
  destruct (write_loop_step _ _ _ _ _ _ _ _ Hrun)
    as [(Hcond & Hout) | (Hcond & r3 & c3 & e3 & Hsync & Hnext)];
    rewrite HE, size_sub_exact in Hcond by (assumption || lia).
  - injection Hout as -> -> -> ->.
    repeat split; try assumption; try lia.
    exists []. rewrite app_nil_r. split; [reflexivity|]. split.
    + rewrite Z.div_small; [reflexivity | lia].
    + rewrite Z.mod_small; [reflexivity | lia].
  - destruct Hnext as [(_ & Hout) | (-> & Hrec)]; [discriminate|].
    destruct (flash_sync_cases _ _ _ _ _ Hsync)
      as [(HfL & _) (evs & Ht & Hcase)].
    destruct Hcase as [(Hr & _) | (_ & Hbb3 & Hw & _)]; [congruence|].
    cbn [fill_buffer set_buf set_buf_bytes buf_len] in HfL.
    assert (HP' : to_size (int_add processed (buf_empty_bytes c))
                  = to_size processed + (buf_len c - buf_bytes c)).
    { rewrite to_size_int_add, HE. apply to_size_small.
      unfold is_size in *. lia. }
    specialize (IH c3 c' d len (int_add processed (buf_empty_bytes c))
                  processed' 0 r e3 e').
    rewrite HfL, Hbb3, HP' in IH.
    destruct (IH HL Hpos ltac:(lia) Hlen ltac:(lia) Hrec)
      as (HL' & Hp' & Hbb' & evs' & Ht' & Hn' & Hm').
    repeat split; try assumption.
    exists (evs ++ evs'). split; [now rewrite Ht', Ht, app_assoc|].
    replace (buf_bytes c + (len - to_size processed))
      with (0 + (len - (to_size processed + (buf_len c - buf_bytes c)))
            + 1 * buf_len c) by ring.
    rewrite Z.div_add, Z.mod_add by lia.
    rewrite writes_app, length_app, Nat2Z.inj_add, Hw. split; lia.
Qed.

(** Without [flush], a write that returns 0 on such a context makes
    [(buf_bytes + len) / buf_len] commits and leaves
    [(buf_bytes + len) mod buf_len] bytes in the buffer. *)
Lemma fbw_write_commits (fuel : nat) (c c' : ctx_t) (d : data_ptr)
  (len : Z) (e e' : env_t) :
  is_size (buf_len c) -> 0 < buf_len c -> 0 <= buf_bytes c <= buf_len c ->
  is_size len ->
  fbw_write CONFIG_FBW_ERASE fuel (Some c) (Some d) len false e
  = Some (0, Some c', e') ->
  exists evs,
    trace e' = trace e ++ evs
    /\ Z.of_nat (length (writes evs)) = (buf_bytes c + len) / buf_len c
    /\ buf_bytes c' = (buf_bytes c + len) mod buf_len c.
Proof.
  intros HL Hpos Hbb Hlen Hrun. unfold fbw_write in Hrun.
  destruct (size_add (size_add (bytes_written c) (buf_bytes c)) len
            >? available c); [discriminate|].
  destruct (write_loop CONFIG_FBW_ERASE fuel c d len 0 0 e)
    as [out|] eqn:Hloop; [|discriminate].
  assert (Hz : to_size 0 = 0) by reflexivity.
  destruct out as [r c1 e1 | r c1 p1 e1].
  { assert (Hout := write_loop_mod fuel c d len 0 0 e _ Hlen
                      ltac:(unfold is_size in Hlen; rewrite Hz; lia) Hloop).
    cbn in Hout. injection Hrun as -> _ _. congruence. }
  destruct (write_loop_commits fuel c c1 d len 0 p1 0 r e e1 HL Hpos Hbb Hlen
              ltac:(unfold is_size in Hlen; rewrite Hz; lia) Hloop)
    as (HL1 & Hp1 & Hbb1 & evs & Ht & Hn & Hm).
  rewrite Hz, Z.sub_0_r in Hn, Hm.
  cbn [andb] in Hrun. injection Hrun as _ <- <-.
  exists evs. split; [exact Ht|]. split; [exact Hn|].
  assert (Hp0 : 0 <= to_size p1) by apply to_size_range.
  pose proof (Z.mod_pos_bound (buf_bytes c + len) (buf_len c) Hpos) as Hbound.
  unfold place_rest. destruct (to_size p1 <? len) eqn:Hlt.
  - apply Z.ltb_lt in Hlt. cbn.
    rewrite size_sub_exact by (assumption || lia).
    rewrite size_add_exact; unfold is_size in *; lia.
  - apply Z.ltb_ge in Hlt. lia.
Qed.

(** C6, as the code has it.  A write without [flush] that returns 0,
    of a positive multiple of [buf_len], on a buffer holding fewer than
    [buf_len] bytes, makes exactly [len / buf_len] commits and leaves
    [buf_bytes] as it found it: 0 when the buffer was empty before the
    call, the bytes carried over from earlier writes otherwise. *)
Theorem fbw_write_multiple_of_buf_len (fuel : nat) (c c' : ctx_t)
  (d : data_ptr) (len : Z) (e e' : env_t) :
  is_size (buf_len c) -> 0 < buf_len c -> 0 <= buf_bytes c < buf_len c ->
  is_size len -> 0 < len -> len mod buf_len c = 0 ->
  fbw_write CONFIG_FBW_ERASE fuel (Some c) (Some d) len false e
  = Some (0, Some c', e') ->
  exists evs,
    trace e' = trace e ++ evs
    /\ Z.of_nat (length (writes evs)) = len / buf_len c
    /\ buf_bytes c' = buf_bytes c.
Proof.
  intros HL Hpos Hbb Hlen Hlen0 Hmul Hrun.
  destruct (fbw_write_commits fuel c c' d len e e' HL Hpos ltac:(lia) Hlen Hrun)
    as (evs & Ht & Hn & Hm).
  exists evs. split; [exact Ht|].
  apply Z.div_exact in Hmul; [|lia].
  rewrite Hn, Hm, Hmul, (Z.mul_comm (buf_len c)).
  rewrite Z.div_add, Z.mod_add, Z.div_mul by lia.
  rewrite Z.div_small, Z.mod_small by lia. split; reflexivity.
Qed.

(** ** Failed commits *)

(** A commit that returns an error has left the counters alone, unless
    the error is the callback's: then lines 91-92 have run. *)
Lemma flash_sync_failure_counters (c c' : ctx_t) (rc : Z) (e e' : env_t) :
  flash_sync CONFIG_FBW_ERASE c e = (rc, c', e') ->
  rc <> 0 ->
  (bytes_written c' = bytes_written c /\ buf_bytes c' = buf_bytes c
   /\ hooks (trace e') = hooks (trace e))
  \/ (callback c <> None
      /\ bytes_written c' = size_add (bytes_written c) (buf_bytes c)
      /\ buf_bytes c' = 0
      /\ hooks (trace e')
         = hooks (trace e)
           ++ [(buf_bytes c, size_add (offset c) (bytes_written c))]).
Proof.
  intros Hsync Hrc.
  destruct (flash_sync_cases _ _ _ _ _ Hsync) as [_ (evs & Ht & Hcase)].
  rewrite Ht, hooks_app.
  destruct Hcase as [(_ & Hbw & Hbb & Hh & _) | (Hbw & Hbb & _ & Hh)].
  - left. rewrite Hh, app_nil_r. auto.
  - right. destruct (callback c).
    + rewrite Hh. repeat split; try assumption. congruence.
    + destruct Hh as [_ Hz]. congruence.
Qed.

(** Without a callback, every failed commit leaves the counters alone. *)
Lemma flash_sync_failure_no_callback (c c' : ctx_t) (rc : Z) (e e' : env_t) :
  callback c = None ->
  flash_sync CONFIG_FBW_ERASE c e = (rc, c', e') ->
  rc <> 0 ->
  bytes_written c' = bytes_written c /\ buf_bytes c' = buf_bytes c.
Proof.
  intros Hcb Hsync Hrc.
  destruct (flash_sync_failure_counters _ _ _ _ _ Hsync Hrc)
    as [(? & ? & _) | (Hne & _)]; [auto | congruence].
Qed.

(** ** The capacity invariant *)

Lemma fbw_init_within_capacity (ctx : option ctx_t) (d : option (@device W))
  (b : option (list byte)) (blen off size : Z) (cb : option fbw_callback_t)
  (c' : ctx_t) :
  is_size size ->
  fbw_init ctx d b blen off size cb = Some (0, Some c') ->
  within_capacity c' /\ bytes_written c' = 0 /\ buf_bytes c' = 0.
Proof.
  intros Hsize. unfold fbw_init. change (- EFAULT) with (-14).
  destruct ctx, d as [d|], b; try discriminate.
  destruct (layout_scan blen (page_layout d) 0) as [r|z] eqn:Hscan.
  { apply layout_scan_error in Hscan. subst r. discriminate. }
  destruct (size_add off size >? z); [discriminate|].
  destruct (write_block_size d =? 0); [discriminate|].
  destruct (nonzero (off mod write_block_size d)); [discriminate|].
  intros [= <-]. unfold within_capacity. cbn. repeat split.
  destruct (size =? 0).
  - pose proof (to_size_range (z - off)) as Hr. unfold is_size, size_sub in *.
    lia.
  - unfold is_size in Hsize. lia.
Qed.

Lemma fbw_erase_within_capacity (c c' : ctx_t) (off rc : Z) (e e' : env_t) :
  fbw_erase c off e = (rc, c', e') ->
  within_capacity c -> within_capacity c'.
Proof.
  intros He. destruct (fbw_erase_frame _ _ _ _ _ _ He) as [-> _].
  unfold within_capacity. now cbn.
Qed.

(** A write (or flush) whose exact sum is representable keeps the
    invariant, whether it returns 0 or an error. *)
Lemma fbw_write_within_capacity (fuel : nat) (c c' : ctx_t) (d : data_ptr)
  (len rc : Z) (flush : bool) (e e' : env_t) :
  wf_ctx c -> is_size len ->
  bytes_written c + buf_bytes c + len <= SIZE_MAX ->
  within_capacity c ->
  fbw_write CONFIG_FBW_ERASE fuel (Some c) (Some d) len flush e
  = Some (rc, Some c', e') ->
  within_capacity c'.
Proof.
  intros Hwf Hlen Hfit Hinv Hrun. unfold within_capacity in *.
  destruct (fbw_write_exact fuel c c' d len rc flush e e' Hwf Hlen Hfit Hrun)
    as (Ha & _ & _ & [(_ & -> & _) | (Hcap & Hle & _)]); [assumption | lia].
Qed.

(** ** fbw_write returns *)

(** The commit made by the loop starts from a full buffer. *)
Lemma fill_buffer_full (c : ctx_t) (d : data_ptr) (processed n : Z) :
  buf_bytes (fill_buffer c d processed n) = buf_len c
  /\ bytes_written (fill_buffer c d processed n) = bytes_written c
  /\ offset (fill_buffer c d processed n) = offset c
  /\ callback (fill_buffer c d processed n) = callback c.
Proof. unfold fill_buffer. cbn. auto. Qed.

(** So the callback of a buffer-full commit is called with [buf_len]. *)
Lemma loop_commit_hook (c c' : ctx_t) (d : data_ptr) (processed n : Z)
  (cb : fbw_callback_t) (e e' : env_t) :
  callback c = Some cb ->
  flash_sync CONFIG_FBW_ERASE (fill_buffer c d processed n) e = (0, c', e') ->
  exists evs,
    trace e' = trace e ++ evs
    /\ hooks evs = [(buf_len c, size_add (offset c) (bytes_written c))].
Proof.
  intros Hcb Hsync.
  destruct (fill_buffer_full c d processed n) as (Hbb & Hbw & Hoff & Hcb').
  destruct (flash_sync_cases _ _ _ _ _ Hsync) as [_ (evs & Ht & Hcase)].
  exists evs. split; [exact Ht|].
  destruct Hcase as [(Hrc & _) | (_ & _ & _ & Hh)]; [congruence|].
  rewrite Hcb', Hcb, Hbb, Hbw, Hoff in Hh. exact Hh.
Qed.

(** Starting from an empty buffer of positive capacity, the loop is left
    within as many turns as there are bytes to take, plus one. *)
Lemma write_loop_returns (fuel : nat) :
  forall (c : ctx_t) (d : data_ptr) (len processed rc : Z) (e : env_t),
    is_size len -> to_size processed <= len ->
    is_size (buf_len c) -> 0 < buf_len c -> buf_bytes c = 0 ->
    len - to_size processed < Z.of_nat fuel ->
    write_loop CONFIG_FBW_ERASE fuel c d len processed rc e <> None.
Proof.
  induction fuel as [|fuel IH]; intros c d len processed rc e
    Hlen HP HL Hpos Hbb Hfuel.
  - cbn in Hfuel. lia.
  - assert (HP0 : 0 <= to_size processed) by apply to_size_range.
    assert (HE : to_size (buf_empty_bytes c) = buf_len c).
    { rewrite to_size_buf_empty_bytes, Hbb, size_sub_exact by
        (unfold is_size in *; (assumption || lia)). lia. }
    destruct (write_loop CONFIG_FBW_ERASE (S fuel) c d len processed rc e)
      as [out|] eqn:Hrun; [discriminate|]. exfalso.
    cbn [write_loop] in Hrun. rewrite HE in Hrun.
    rewrite size_sub_exact in Hrun by (assumption || lia).
    destruct (len - to_size processed >=? buf_len c) eqn:Hcond;
      [|discriminate].
    rewrite Z.geb_leb, Z.leb_le in Hcond.
    destruct (flash_sync CONFIG_FBW_ERASE
                (fill_buffer c d processed (buf_empty_bytes c)) e)
      as [[r c3] e3] eqn:Hsync.
    destruct (nonzero r) eqn:Hr; [discriminate|].
    apply nonzero_false in Hr. subst r.
    destruct (flash_sync_cases _ _ _ _ _ Hsync)
      as [(HfL & _) (evs & _ & Hcase)].
    destruct Hcase as [(Hrc & _) | (_ & Hbb3 & _)]; [congruence|].
    cbn [fill_buffer set_buf set_buf_bytes buf_len] in HfL.
    assert (HP' : to_size (int_add processed (buf_empty_bytes c))
                  = to_size processed + buf_len c).
    { rewrite to_size_int_add, HE. apply to_size_small.
      unfold is_size in *. lia. }
    apply (IH c3 d len (int_add processed (buf_empty_bytes c)) 0 e3);
      rewrite ?HfL, ?HP'; try assumption; lia.
Qed.

(** [fbw_write] on a context with a staging buffer of positive capacity
    returns: [len + 2] turns of the loop are enough, whatever the driver
    and the callback answer. *)
Lemma fbw_write_returns (c : ctx_t) (d : data_ptr) (len : Z) (flush : bool)
  (e : env_t) :
  is_size len -> is_size (buf_len c) -> 0 < buf_len c ->
  fbw_write CONFIG_FBW_ERASE (S (S (Z.to_nat len))) (Some c) (Some d) len
    flush e <> None.
Proof.
  intros Hlen HL Hpos. unfold fbw_write.
  destruct (size_add (size_add (bytes_written c) (buf_bytes c)) len
            >? available c); [discriminate|].
  assert (Hn : len < Z.of_nat (S (Z.to_nat len))).
  { unfold is_size in Hlen. lia. }
  remember (S (Z.to_nat len)) as n eqn:En. clear En.
  assert (Hloop : write_loop CONFIG_FBW_ERASE (S n) c d len 0 0 e <> None).
  { assert (Hz : to_size 0 = 0) by reflexivity.
    cbn [write_loop]. rewrite Hz.
    destruct (size_sub len 0 >=? to_size (buf_empty_bytes c)) eqn:Hcond;
      [|discriminate].
    rewrite Z.geb_leb, Z.leb_le in Hcond.
    rewrite size_sub_exact in Hcond by (unfold is_size in *; (assumption || lia)).
    destruct (flash_sync CONFIG_FBW_ERASE
                (fill_buffer c d 0 (buf_empty_bytes c)) e)
      as [[r c3] e3] eqn:Hsync.
    destruct (nonzero r) eqn:Hr; [discriminate|].
    apply nonzero_false in Hr. subst r.
    destruct (flash_sync_cases _ _ _ _ _ Hsync)
      as [(HfL & _) (evs & _ & Hcase)].
    destruct Hcase as [(Hrc & _) | (_ & Hbb3 & _)]; [congruence|].
    cbn [fill_buffer set_buf set_buf_bytes buf_len] in HfL.
    assert (HE0 : 0 <= to_size (buf_empty_bytes c)) by apply to_size_range.
    assert (HP' : to_size (int_add 0 (buf_empty_bytes c))
                  = to_size (buf_empty_bytes c)).
    { rewrite to_size_int_add, Hz, Z.add_0_l. apply to_size_small.
      apply to_size_range. }
    apply write_loop_returns; rewrite ?HfL, ?HP'; try assumption;
      unfold is_size in *; lia. }
  destruct (write_loop CONFIG_FBW_ERASE (S n) c d len 0 0 e)
    as [[r c1 e1 | r c1 p1 e1]|]; [discriminate | | congruence].
  destruct (flush && (buf_bytes (place_rest c1 d len p1) >? 0));
    [|discriminate].
  destruct (flash_sync CONFIG_FBW_ERASE (place_rest c1 d len p1) e1)
    as [[r3 c3] e3]. discriminate.
Qed.

End EngineFacts.

(** * Runs on the small device *)

(** ** The test suite's scenarios, scaled to the small device *)

(** [test_fbw_write]: nothing reaches the flash before the buffer is
    full; the missing byte triggers the commit. *)
Example partial_fill_then_top_up :
  match seven_bytes with Some (rc, _, _) => rc = 0 | None => False end
  /\ flash_range seven_bytes 16 8 = repeat xff 8
  /\ match top_up with Some (rc, _, _) => rc = 0 | None => False end
  /\ flash_range top_up 16 8 = repeat xaa 8
  /\ fbw_bytes_written (ctx_of_write top_up) = 8.
Proof. vm_compute. repeat split. Qed.

(** [test_fbw_write_cross_buf_border] and [test_fbw_write_callback]:
    two buffers and a flushed residue, each commit reported to the
    callback with its length and offset. *)
Example cross_border_commits :
  match cross_border 0 with Some (rc, _, _) => rc = 0 | None => False end
  /\ flash_range (cross_border 0) 16 20 = repeat xaa 20
  /\ flash_range (cross_border 0) 36 12 = repeat xff 12
  /\ hooks (trace (env_of_write (cross_border 0)))
     = [(8, 16); (8, 24); (4, 32)]
  /\ erases (trace (env_of_write (cross_border 0))) = [(16, 16); (32, 16)].
Proof. vm_compute. repeat split. Qed.

(** ** A failing callback (the last step of [test_fbw_write_callback])

    C1.  The staging buffer holds eight bytes and nothing is committed
    yet; the flash write and the read-back succeed and the callback
    returns [-EFAULT].  The commit returns [-EFAULT], and yet
    [bytes_written] has advanced to 8 and [buf_bytes] is 0: lines 86-88
    log the callback's error and fall through to lines 91-92.  The same
    is seen from [fbw_write] with [flush] set. *)
Theorem commit_hook_failure_advances :
  bytes_written full_ctx = 0 /\ buf_bytes full_ctx = 8
  /\ (let '(rc, c', _) := flash_sync true full_ctx (sim_env (- EFAULT)) in
      rc = - EFAULT /\ bytes_written c' = 8 /\ buf_bytes c' = 0)
  /\ match fbw_write true 2 (Some (stream_ctx (Some fbw_callback)))
             (Some write_buf) 8 true (sim_env (- EFAULT)) with
     | Some (rc, Some c', _) =>
         rc = - EFAULT /\ bytes_written c' = 8 /\ buf_bytes c' = 0
     | _ => False
     end.
Proof. vm_compute. repeat split. Qed.

(** ** An oversized write

    C3.  One byte is buffered in a stream of 16 bytes and [fbw_write] is
    called with [len = SIZE_MAX].  The exact sum exceeds [available], but
    the [size_t] sum of line 107 wraps to 0, the test passes, and the
    call goes on to commit seven buffers before the driver refuses:
    it returns the driver's [-EINVAL], not [-ENOMEM]. *)
Theorem capacity_test_wraps :
  let c := ctx_of_write one_byte in
  bytes_written c = 0 /\ buf_bytes c = 1 /\ available c = 16
  /\ available c < bytes_written c + buf_bytes c + SIZE_MAX
  /\ size_add (size_add (bytes_written c) (buf_bytes c)) SIZE_MAX = 0
  /\ match oversized with
     | Some (rc, _, e') =>
         rc = - EINVAL /\ rc <> - ENOMEM
         /\ writes (trace e')
            = [(0, 8); (8, 8); (16, 8); (24, 8); (32, 8); (40, 8); (48, 8)]
     | None => False
     end.
Proof. vm_compute. repeat split; discriminate. Qed.

(** C8.  The same call breaks the capacity invariant: it holds after
    [fbw_init] and after the one-byte write, and after the oversized
    write [bytes_written + buf_bytes] is 64 with [available] still 16. *)
Theorem oversized_write_breaks_capacity :
  within_capacity slot_ctx
  /\ within_capacity (ctx_of_write one_byte)
  /\ (let c' := ctx_of_write oversized in
      bytes_written c' = 56 /\ buf_bytes c' = 8 /\ available c' = 16
      /\ ~ within_capacity c').
Proof.
  unfold within_capacity. vm_compute. repeat split; try discriminate.
  intros H. now apply H.
Qed.

(** ** Counterexamples *)

(** C6, as stated, fails.  Three bytes are buffered; a write of eight
    bytes (one [buf_len]) without [flush] returns 0 after one commit,
    and [buf_bytes] is 3, not 0. *)
Lemma multiple_write_carries_bytes :
  buf_bytes (ctx_of_write three_bytes) = 3
  /\ 8 mod buf_len (ctx_of_write three_bytes) = 0
  /\ match eight_more with
     | Some (rc, Some c', e') =>
         rc = 0
         /\ length (writes (trace e'))
            = S (length (writes (trace (env_of_write three_bytes))))
         /\ buf_bytes c' = 3 /\ buf_bytes c' <> 0
     | _ => False
     end.
Proof. vm_compute. repeat split; discriminate. Qed.

(** C7, as stated, fails.  After one buffer was written to a fresh
    stream at offset 16, the commit has erased the page at 16 and marked
    it.  Two consecutive calls of [fbw_erase] for offset 16 both return
    0, and neither erases: no erase is made, not one. *)
Lemma erase_twice_no_erase :
  fst (fst erase_after_write) = 0
  /\ fst (fst erase_after_write_again) = 0
  /\ erases (trace (snd erase_after_write_again))
     = erases (trace (env_of_write one_buffer))
  /\ length (erases (trace (snd erase_after_write_again)))
     <> S (length (erases (trace (env_of_write one_buffer)))).
Proof. vm_compute. repeat split; discriminate. Qed.

(** ** Instances of the general statements *)

(** C2 on the small device: the commit of a full buffer at the start of
    the stream calls the callback once, with length 8 and offset 16. *)
Lemma flash_sync_hook_once_witness :
  exists evs,
    trace (snd (flash_sync true full_ctx (sim_env 0)))
    = trace (sim_env 0) ++ evs
    /\ hooks evs = [(8, 16)]
    /\ bytes_written (snd (fst (flash_sync true full_ctx (sim_env 0)))) = 8.
Proof.
  apply (flash_sync_hook_once true full_ctx
           (snd (fst (flash_sync true full_ctx (sim_env 0)))) fbw_callback
           (sim_env 0) (snd (flash_sync true full_ctx (sim_env 0)))).
  - reflexivity.
  - vm_compute. reflexivity.
Defined.

(** C4 on the small device (pages of 16 bytes): a buffer of 32 bytes is
    refused, one of 8 bytes is accepted. *)
Lemma fbw_init_page_size_check_witness :
  fbw_init (Some sim_ctx0) (Some sim_flash) (Some (repeat x00 32)) 32 0 0 None
  = Some (- EFAULT, Some sim_ctx0)
  /\ exists c',
       fbw_init (Some sim_ctx0) (Some sim_flash) (Some (repeat x00 8)) 8 0 0
         None
       = Some (0, Some c')
       /\ buf_len c' = 8 /\ bytes_written c' = 0 /\ buf_bytes c' = 0.
Proof.
  split.
  - apply (fbw_init_page_size_check sim_ctx0 sim_flash (repeat x00 32) 32 0 0
             None).
    eexists. split; [left; reflexivity | reflexivity].
  - apply (fbw_init_page_size_check sim_ctx0 sim_flash (repeat x00 8) 8 0 0
             None).
    + intros l [<- | []]. by_computation.
    + by_computation.
    + by_computation.
    + reflexivity.
Defined.

(** C5 on the small device: twenty bytes written and flushed. *)
Lemma fbw_write_accounting_witness :
  size_add (bytes_written (ctx_of_write (cross_border 0)))
    (buf_bytes (ctx_of_write (cross_border 0)))
  = size_add (size_add 0 0) 20
  /\ bytes_written (ctx_of_write (cross_border 0))
     + buf_bytes (ctx_of_write (cross_border 0)) = 0 + 0 + 20.
Proof.
  destruct (fbw_write_accounting true 4 (stream_ctx (Some fbw_callback))
              (ctx_of_write (cross_border 0)) write_buf 20 true (sim_env 0)
              (env_of_write (cross_border 0))) as [Hmod Hexact].
  - by_computation.
  - by_computation.
  - vm_compute. reflexivity.
  - split; [exact Hmod|]. apply Hexact. by_computation.
Defined.

(** C6 as amended, on the small device: sixteen bytes on top of three
    buffered ones make two commits and leave three bytes buffered. *)
Lemma fbw_write_multiple_of_buf_len_witness :
  exists evs,
    trace (env_of_write two_buffers)
    = trace (env_of_write three_bytes) ++ evs
    /\ Z.of_nat (length (writes evs)) = 16 / 8
    /\ buf_bytes (ctx_of_write two_buffers) = 3.
Proof.
  apply (fbw_write_multiple_of_buf_len true 4 (ctx_of_write three_bytes)
           (ctx_of_write two_buffers) write_buf 16 (env_of_write three_bytes)
           (env_of_write two_buffers)).
  - by_computation.
  - reflexivity.
  - by_computation.
  - by_computation.
  - reflexivity.
  - reflexivity.
  - vm_compute. reflexivity.
Defined.

(** C7 as amended, on the small device: offsets 16 and 20 lie in the
    page at 16; on a fresh stream the two calls make one erase. *)
Lemma fbw_erase_twice_same_page_witness :
  fst (fst erase_fresh_again) = 0
  /\ snd (fst erase_fresh_again) = snd (fst erase_fresh)
  /\ snd erase_fresh_again = snd erase_fresh
  /\ exists evs,
       trace (snd erase_fresh_again) = trace (sim_env 0) ++ evs
       /\ erases evs = [(16, 16)].
Proof.
  apply (fbw_erase_twice_same_page (stream_ctx None) (snd (fst erase_fresh))
           (snd (fst erase_fresh_again)) 16 20 (fst (fst erase_fresh))
           (fst (fst erase_fresh_again)) (snd (sim_page_info 16))
           (snd (sim_page_info 20)) (sim_env 0) (snd erase_fresh)
           (snd erase_fresh_again)).
  - reflexivity.
  - reflexivity.
  - reflexivity.
  - vm_compute. reflexivity.
  - vm_compute. reflexivity.
Defined.

(** C9 on the small device: an offset plus size beyond the device makes
    [fbw_init] fail and leaves the context as it was. *)
Lemma fbw_init_error_leaves_ctx_witness :
  fbw_init (Some sim_ctx0) (Some sim_flash) (Some (repeat x00 8)) 8 16 52 None
  = Some (- EFAULT, Some sim_ctx0).
Proof.
  assert (H : exists rc ctx',
             fbw_init (Some sim_ctx0) (Some sim_flash) (Some (repeat x00 8)) 8
               16 52 None = Some (rc, ctx') /\ rc = - EFAULT).
  { eexists. eexists. split; reflexivity. }
  destruct H as (rc & ctx' & Hrun & ->).
  rewrite Hrun. f_equal. f_equal.
  apply (fbw_init_error_leaves_ctx (Some sim_ctx0) ctx' (Some sim_flash)
           (Some (repeat x00 8)) 8 16 52 (- EFAULT) None Hrun).
  discriminate.
Defined.

(** C10 on the worn device: the erase of the page at 16 fails with
    [-EIO]; the marker is 16 all the same, and a call for offset 20
    returns 0 without a further erase. *)
Lemma fbw_erase_failed_page_not_retried_witness :
  fst (fst erase_worn) = - EIO
  /\ last_erased_page_start_offset (snd (fst erase_worn)) = 16
  /\ erases (trace (snd erase_worn)) = [(16, 16)]
  /\ fbw_erase (snd (fst erase_worn)) 20 (snd erase_worn)
     = (0, snd (fst erase_worn), snd erase_worn).
Proof.
  split; [reflexivity|].
  apply (fbw_erase_failed_page_not_retried worn_ctx (snd (fst erase_worn)) 16
           20 (fst (fst erase_worn)) (snd (sim_page_info 16))
           (snd (sim_page_info 20)) (sim_env 0) (snd erase_worn)
           (snd erase_worn)).
  - reflexivity.
  - vm_compute. reflexivity.
  - by_computation.
  - reflexivity.
  - reflexivity.
Defined.

(** * Further properties of the engine *)

Lemma to_int_small (z : Z) : INT_MIN <= z <= INT_MAX -> to_int z = z.
Proof.
  unfold to_int, INT_MIN, INT_MAX, SIZE_BITS. rewrite SIZE_MOD_val.
  change (2 ^ (32 - 1)) with 2147483648. intros H.
  rewrite Z.mod_small by lia. lia.
Qed.

Lemma data_range_length (d : data_ptr) (from n : Z) :
  length (data_range d from n) = Z.to_nat n.
Proof. unfold data_range. now rewrite length_map, length_seq. Qed.

Lemma data_range_app (d : data_ptr) (from n m : Z) :
  0 <= n -> 0 <= m ->
  data_range d from n ++ data_range d (from + n) m = data_range d from (n + m).
Proof.
  intros Hn Hm. unfold data_range.
  rewrite Z2Nat.inj_add, seq_app, map_app by assumption. f_equal.
  cbn [Nat.add].
  assert (Hshift : forall k a,
             map (fun i => d (from + n + Z.of_nat i)) (seq a k)
             = map (fun i => d (from + Z.of_nat i)) (seq (Z.to_nat n + a) k)).
  { induction k as [|k IH]; intros a; [reflexivity|].
    cbn [seq map]. f_equal.
    - f_equal. lia.
    - rewrite (IH (S a)). now rewrite Nat.add_succ_r. }
  rewrite Hshift. now rewrite Nat.add_0_r.
Qed.

Lemma written_app (s t : list event) :
  written (s ++ t) = written s ++ written t.
Proof. apply flat_map_app. Qed.

Lemma write_offsets_app (s t : list event) :
  write_offsets (s ++ t) = write_offsets s ++ write_offsets t.
Proof. apply flat_map_app. Qed.

Lemma guarded_app (s t : list event) :
  guarded s -> guarded t -> guarded (s ++ t).
Proof.
  intros Hs Ht. induction Hs; cbn [app]; try assumption;
    constructor; assumption.
Qed.

Section Coverage.

Context {W : Type}.
Variable CONFIG_FBW_ERASE : bool.

Abbreviation cctx := (@fbw_ctx W).
Abbreviation cenv := (@env W).

(** ** The calls a commit makes *)

Lemma fbw_erase_trace (c c' : cctx) (off rc : Z) (e e' : cenv) :
  fbw_erase c off e = (rc, c', e') ->
  exists evs,
    trace e' = trace e ++ evs
    /\ guarded evs /\ written evs = [] /\ write_offsets evs = [].
Proof.
  intros He.
  destruct (flash_get_page_info_by_offs (fdev c) off) as [prc page] eqn:Hp.
  destruct (fbw_erase_cases _ _ _ _ _ _ _ _ Hp He)
    as [(_ & _ & _ & ->) | [(_ & _ & _ & _ & ->) | (_ & _ & _ & Ht & _)]].
  - exists []. rewrite app_nil_r. repeat split. constructor.
  - exists []. rewrite app_nil_r. repeat split. constructor.
  - eexists. split; [exact Ht|]. repeat split. repeat constructor.
Qed.

(** A commit's calls are guarded; when it returns 0 it has made one
    flash write, of the buffered bytes, at [offset + bytes_written]. *)
Lemma flash_sync_trace (c c' : cctx) (rc : Z) (e e' : cenv) :
  flash_sync CONFIG_FBW_ERASE c e = (rc, c', e') ->
  exists evs,
    trace e' = trace e ++ evs
    /\ guarded evs
    /\ (rc = 0 ->
        written evs = firstn (Z.to_nat (buf_bytes c)) (buf c)
        /\ write_offsets evs
           = [to_int (size_add (offset c) (bytes_written c))]).
Proof.
  unfold flash_sync.
  destruct (if CONFIG_FBW_ERASE
            then fbw_erase c
                   (to_int (size_add (size_add (offset c) (bytes_written c))
                              (buf_bytes c))) e
            else (0, c, e)) as [[r1 c1] e1] eqn:Hstep.
  assert (Hfr : c1 = set_last_erased c (last_erased_page_start_offset c1)
                /\ exists evs1, trace e1 = trace e ++ evs1
                                /\ guarded evs1 /\ written evs1 = []
                                /\ write_offsets evs1 = []).
  { destruct CONFIG_FBW_ERASE.
    - split; [now apply fbw_erase_frame in Hstep|].
      now apply fbw_erase_trace in Hstep.
    - injection Hstep as <- <- <-. split; [now destruct c|].
      exists []. rewrite app_nil_r. repeat split. constructor. }
  destruct Hfr as [Hc1 (evs1 & Ht1 & Hg1 & Hw1 & Ho1)].
  destruct (CONFIG_FBW_ERASE && (r1 <? 0)) eqn:Hneg.
  - intros [= <- <- <-]. exists evs1. split; [exact Ht1|].
    split; [exact Hg1|]. intros ->.
    apply andb_prop in Hneg. destruct Hneg as [_ Hneg]. discriminate Hneg.
  - clear Hneg Hstep. rewrite Hc1.
    cbn [fdev buf buf_bytes callback set_last_erased].
    unfold dev_write.
    destruct (flash_write (fdev c)
                (to_int (size_add (offset c) (bytes_written c)))
                (firstn (Z.to_nat (buf_bytes c)) (buf c)) (buf_bytes c)
                (world (dev_protect (fdev c) false e1))) as [r2 w2].
    set (wa := size_add (offset c) (bytes_written c)).
    set (blk := [EvProtect false;
                 EvWrite (to_int wa) (firstn (Z.to_nat (buf_bytes c)) (buf c));
                 EvProtect true]).
    assert (Hblock : forall post,
               guarded post -> written post = [] -> write_offsets post = [] ->
               guarded (evs1 ++ blk ++ post)
               /\ written (evs1 ++ blk ++ post)
                  = firstn (Z.to_nat (buf_bytes c)) (buf c)
               /\ write_offsets (evs1 ++ blk ++ post) = [to_int wa]).
    { intros post Hg Hw Ho. split; [|split].
      - apply guarded_app; [assumption|]. cbn [app blk]. now constructor.
      - rewrite !written_app, Hw1, Hw. cbn. now rewrite !app_nil_r.
      - rewrite !write_offsets_app, Ho1, Ho. reflexivity. }
    destruct (nonzero r2) eqn:Hr2.
    + intros [= <- <- <-]. exists (evs1 ++ blk ++ []). split.
      { rewrite dev_protect_trace. cbn [trace].
        rewrite dev_protect_trace, Ht1. rewrite <- !app_assoc. reflexivity. }
      destruct (Hblock [] guarded_nil eq_refl eq_refl) as (Hg & _).
      split; [exact Hg|]. apply nonzero_true in Hr2. intros ->. congruence.
    + destruct (callback c) as [cb|].
      * unfold dev_read.
        match goal with
        | |- context [flash_read ?d ?o ?b ?n ?w] =>
            destruct (flash_read d o b n w) as [[r3 got] w3]
        end.
        cbn [set_buf buf buf_bytes].
        destruct (nonzero r3) eqn:Hr3.
        -- intros [= <- <- <-].
           exists (evs1 ++ blk ++ [EvRead (to_int wa) (buf_bytes c)]). split.
           { rewrite dev_protect_trace. cbn [trace].
             rewrite dev_protect_trace, Ht1. rewrite <- !app_assoc.
             reflexivity. }
           destruct (Hblock [EvRead (to_int wa) (buf_bytes c)]
                       ltac:(repeat constructor) eq_refl eq_refl) as (Hg & _).
           split; [exact Hg|]. apply nonzero_true in Hr3.
           intros ->. congruence.
        -- unfold call_hook.
           match goal with
           | |- context [cb ?b ?n ?o ?w] => destruct (cb b n o w) as [r4 w4]
           end.
           intros [= <- <- <-].
           exists (evs1 ++ blk ++ [EvRead (to_int wa) (buf_bytes c);
                                   EvHook (buf_bytes c) wa]). split.
           { rewrite dev_protect_trace. cbn [trace].
             rewrite dev_protect_trace, Ht1. rewrite <- !app_assoc.
             reflexivity. }
           destruct (Hblock [EvRead (to_int wa) (buf_bytes c);
                             EvHook (buf_bytes c) wa]
                       ltac:(repeat constructor) eq_refl eq_refl)
             as (Hg & Hw & Ho).
           split; [exact Hg|]. intros _. split; [exact Hw | exact Ho].
      * intros [= <- <- <-]. exists (evs1 ++ blk ++ []). split.
        { rewrite dev_protect_trace. cbn [trace].
          rewrite dev_protect_trace, Ht1. rewrite <- !app_assoc.
          reflexivity. }
        destruct (Hblock [] guarded_nil eq_refl eq_refl) as (Hg & Hw & Ho).
        split; [exact Hg|]. intros _. split; [exact Hw | exact Ho].
Qed.

Lemma write_loop_unfold (fuel : nat) (c : cctx) (d : data_ptr)
  (len processed rc : Z) (e : cenv) :
  write_loop CONFIG_FBW_ERASE (S fuel) c d len processed rc e
  = if size_sub len (to_size processed) >=? to_size (buf_empty_bytes c) then
      let '(rc, ctx, e) :=
        flash_sync CONFIG_FBW_ERASE
          (fill_buffer c d processed (buf_empty_bytes c)) e in
      if nonzero rc then Some (LoopReturn rc ctx e)
      else write_loop CONFIG_FBW_ERASE fuel ctx d len
             (int_add processed (buf_empty_bytes c)) rc e
    else Some (LoopDone rc c processed e).
Proof. reflexivity. Qed.

Lemma write_loop_guarded (fuel : nat) :
  forall (c : cctx) (d : data_ptr) (len processed rc : Z) (e : cenv)
         (out : loop_exit),
    write_loop CONFIG_FBW_ERASE fuel c d len processed rc e = Some out ->
    exists evs, trace (exit_env out) = trace e ++ evs /\ guarded evs.
Proof.
  induction fuel as [|fuel IH]; intros c d len processed rc e out Hrun;
    [discriminate|].
  destruct (write_loop_step _ _ _ _ _ _ _ _ _ Hrun)
    as [(_ & ->) | (_ & r & c3 & e3 & Hsync & Hnext)].
  - exists []. cbn. rewrite app_nil_r. split; [reflexivity | constructor].
  - destruct (flash_sync_trace _ _ _ _ _ Hsync) as (evs1 & Ht1 & Hg1 & _).
    destruct Hnext as [(_ & ->) | (_ & Hrec)].
    + exists evs1. split; assumption.
    + destruct (IH _ _ _ _ _ _ _ Hrec) as (evs2 & Ht2 & Hg2).
      exists (evs1 ++ evs2). split.
      * now rewrite Ht2, Ht1, app_assoc.
      * now apply guarded_app.
Qed.

(** ** Write protection

    Whatever a call of [fbw_write] does and however it ends, every
    erase and every write it asks of the driver stands between a call
    switching write protection off and one switching it on again, and
    protection is on when the call returns. *)
Theorem fbw_write_guarded (fuel : nat) (c : option cctx)
  (d : option data_ptr) (len rc : Z) (flush : bool) (e e' : cenv)
  (c' : option cctx) :
  fbw_write CONFIG_FBW_ERASE fuel c d len flush e = Some (rc, c', e') ->
  exists evs, trace e' = trace e ++ evs /\ guarded evs.
Proof.
  unfold fbw_write. intros Hrun.
  assert (Hnil : exists evs, trace e = trace e ++ evs /\ guarded evs).
  { exists []. rewrite app_nil_r. split; [reflexivity | constructor]. }
  destruct c as [c|]; [|now injection Hrun as _ _ <-].
  destruct d as [d|]; [|now injection Hrun as _ _ <-].
  destruct (size_add (size_add (bytes_written c) (buf_bytes c)) len
            >? available c); [now injection Hrun as _ _ <-|].
  destruct (write_loop CONFIG_FBW_ERASE fuel c d len 0 0 e)
    as [out|] eqn:Hloop; [|discriminate].
  destruct (write_loop_guarded _ _ _ _ _ _ _ _ Hloop) as (evs & Ht & Hg).
  destruct out as [r c1 e1 | r c1 p1 e1]; cbn [exit_env] in Ht.
  - injection Hrun as _ _ <-. exists evs. split; assumption.
  - destruct (flush && (buf_bytes (place_rest c1 d len p1) >? 0)).
    + destruct (flash_sync CONFIG_FBW_ERASE (place_rest c1 d len p1) e1)
        as [[r3 c3] e3] eqn:Hsync.
      injection Hrun as _ _ <-.
      destruct (flash_sync_trace _ _ _ _ _ Hsync) as (evs3 & Ht3 & Hg3 & _).
      exists (evs ++ evs3). split.
      * now rewrite Ht3, Ht, app_assoc.
      * now apply guarded_app.
    + injection Hrun as _ _ <-. exists evs. split; assumption.
Qed.

(** ** The erase marker after a commit *)

(** After its erase step a commit changes neither the marker nor the
    device of the context. *)
Lemma flash_sync_marker (c c' : cctx) (rc : Z) (e e' : cenv) :
  flash_sync CONFIG_FBW_ERASE c e = (rc, c', e') ->
  last_erased_page_start_offset c'
  = last_erased_page_start_offset
      (snd (fst (if CONFIG_FBW_ERASE
                 then fbw_erase c
                        (to_int (size_add
                                   (size_add (offset c) (bytes_written c))
                                   (buf_bytes c))) e
                 else (0, c, e)))).
Proof.
  unfold flash_sync.
  destruct (if CONFIG_FBW_ERASE
            then fbw_erase c
                   (to_int (size_add (size_add (offset c) (bytes_written c))
                              (buf_bytes c))) e
            else (0, c, e)) as [[r1 c1] e1].
  cbn [fst snd].
  destruct (CONFIG_FBW_ERASE && (r1 <? 0)); [now intros [= _ <- _]|].
  unfold dev_write.
  match goal with
  | |- context [flash_write ?d ?o ?b ?n ?w] =>
      destruct (flash_write d o b n w) as [r2 w2]
  end.
  destruct (nonzero r2); [now intros [= _ <- _]|].
  destruct (callback c1) as [cb|]; [|now intros [= _ <- _]].
  unfold dev_read.
  match goal with
  | |- context [flash_read ?d ?o ?b ?n ?w] =>
      destruct (flash_read d o b n w) as [[r3 got] w3]
  end.
  cbn [set_buf buf buf_bytes].
  destruct (nonzero r3); [now intros [= _ <- _]|].
  unfold call_hook.
  match goal with
  | |- context [cb ?b ?n ?o ?w] => destruct (cb b n o w) as [r4 w4]
  end.
  now intros [= _ <- _].
Qed.

End Coverage.

(** With the erase policy on, a commit leaves the marker on the page
    that holds [offset + bytes_written + buf_bytes], the first byte after
    the data it writes, whether the commit succeeds or fails; an
    [fbw_erase] for any offset of that page afterwards returns 0 and
    erases nothing.  (So the [fbw_erase(&ctx, FLASH_BASE)] of the erase
    test, made after one buffer was written into a larger page, does not
    erase.) *)
Theorem flash_sync_marks_next_page {W : Type} (c c' : @fbw_ctx W) (rc : Z)
  (page : flash_pages_info) (e e' : @env W) :
  flash_get_page_info_by_offs (fdev c)
    (to_int (size_add (size_add (offset c) (bytes_written c)) (buf_bytes c)))
  = (0, page) ->
  flash_sync true c e = (rc, c', e') ->
  last_erased_page_start_offset c' = start_offset page
  /\ forall (off2 : Z) (page2 : flash_pages_info) (e2 : @env W),
       flash_get_page_info_by_offs (fdev c) off2 = (0, page2) ->
       start_offset page2 = start_offset page ->
       fbw_erase c' off2 e2 = (0, c', e2).
Proof.
  intros Hp Hsync.
  pose proof (flash_sync_marker true c c' rc e e' Hsync) as Hm.
  destruct (flash_sync_cases true c c' rc e e' Hsync) as [(_ & Hd & _) _].
  cbn in Hm.
  destruct (fbw_erase c
              (to_int (size_add (size_add (offset c) (bytes_written c))
                         (buf_bytes c))) e) as [[r1 c1] e1] eqn:He.
  cbn [fst snd] in Hm.
  assert (Hc1 : last_erased_page_start_offset c1 = start_offset page).
  { destruct (fbw_erase_cases _ _ _ _ _ _ _ _ Hp He)
      as [(Hprc & _) | [(_ & Heq & _ & -> & _) | (_ & _ & -> & _)]];
      [congruence | assumption | reflexivity]. }
  rewrite Hc1 in Hm. split; [exact Hm|].
  intros off2 page2 e2 Hp2 Hsame. unfold fbw_erase.
  rewrite Hd, Hp2, Hm, Hsame. cbn. now rewrite Z.eqb_refl.
Qed.

Lemma firstn_prefix {A : Type} (a r : list A) (n : nat) :
  length a = n -> firstn n (a ++ r) = a.
Proof.
  intros <-. rewrite firstn_app, Nat.sub_diag, firstn_O, app_nil_r.
  apply firstn_all.
Qed.

Lemma firstn_length_Z {A : Type} (l : list A) (n : Z) :
  0 <= n <= Z.of_nat (length l) -> length (firstn (Z.to_nat n) l) = Z.to_nat n.
Proof. intros H. apply firstn_length_le. lia. Qed.

Section WholeCalls.

Context {W : Type}.
Variable CONFIG_FBW_ERASE : bool.

Abbreviation wctx := (@fbw_ctx W).
Abbreviation wenv := (@env W).

(** ** Writes that stay in the staging buffer *)

(** What [memcpy] puts at [dst + pos] is what [data_range] reads. *)
Lemma memcpy_prefix (dst : list byte) (pos : Z) (d : data_ptr) (from n : Z) :
  0 <= pos <= Z.of_nat (length dst) -> 0 <= n ->
  firstn (Z.to_nat (pos + n)) (memcpy dst pos d from n)
  = firstn (Z.to_nat pos) dst ++ data_range d from n.
Proof.
  intros Hpos Hn. unfold memcpy. fold (data_range d from n).
  rewrite app_assoc. apply firstn_prefix.
  rewrite length_app, data_range_length, firstn_length_Z by assumption. lia.
Qed.

(** A write shorter than the free space of the staging buffer returns 0
    without a single driver or callback call: [bytes_written] stays,
    [buf_bytes] grows by [len], and the buffer holds the bytes it held
    followed by the [len] bytes of [data]. *)
Theorem short_write_only_buffers (fuel : nat) (c : wctx) (d : data_ptr)
  (len : Z) (e : wenv) :
  wf_ctx c -> 0 <= len ->
  bytes_written c + buf_bytes c + len <= available c ->
  len < buf_len c - buf_bytes c ->
  buf_bytes c <= Z.of_nat (length (buf c)) ->
  exists c',
    fbw_write CONFIG_FBW_ERASE (S fuel) (Some c) (Some d) len false e
    = Some (0, Some c', e)
    /\ bytes_written c' = bytes_written c
    /\ buf_bytes c' = buf_bytes c + len
    /\ firstn (Z.to_nat (buf_bytes c')) (buf c')
       = firstn (Z.to_nat (buf_bytes c)) (buf c) ++ data_range d 0 len.
Proof.
  intros Hwf Hlen0 Hcap Hshort Hbuf.
  assert (Hlen : is_size len).
  { destruct Hwf as (_ & Hbb & Hbw & _ & Ha). unfold is_size in *. lia. }
  assert (Hfit : bytes_written c + buf_bytes c + len <= SIZE_MAX).
  { destruct Hwf as (_ & _ & _ & _ & Ha). unfold is_size in *. lia. }
  pose proof (capacity_test_exact c len Hwf Hlen Hfit) as Htest.
  destruct Hwf as (HL & Hbb & Hbw & _).
  exists (place_rest c d len 0). unfold fbw_write. rewrite Htest.
  replace (bytes_written c + buf_bytes c + len >? available c) with false
    by (symmetry; rewrite Z.gtb_ltb; apply Z.ltb_ge; lia).
  assert (Hz : to_size 0 = 0) by reflexivity.
  rewrite write_loop_unfold, Hz, to_size_buf_empty_bytes.
  rewrite !size_sub_exact by (unfold is_size in *; lia).
  replace (len - 0 >=? buf_len c - buf_bytes c) with false
    by (symmetry; rewrite Z.geb_leb; apply Z.leb_gt; lia).
  cbn [andb]. split; [reflexivity|].
  unfold place_rest. rewrite Hz. destruct (0 <? len) eqn:Hpos.
  - cbn [bytes_written buf_bytes buf set_buf set_buf_bytes].
    rewrite size_sub_exact by (unfold is_size in *; lia).
    rewrite size_add_exact by (unfold is_size in *; lia).
    rewrite Z.sub_0_r. repeat split.
    apply memcpy_prefix; unfold is_size in *; lia.
  - apply Z.ltb_ge in Hpos. assert (len = 0) by lia. subst len.
    rewrite Z.add_0_r. repeat split. cbn. now rewrite app_nil_r.
Qed.

(** ** Flush *)

Lemma fill_buffer_nothing (c : wctx) (d : data_ptr) (processed : Z) :
  buf_bytes c = buf_len c -> 0 <= buf_bytes c ->
  fill_buffer c d processed (buf_empty_bytes c) = c.
Proof.
  intros Hfull Hbb. unfold fill_buffer, buf_empty_bytes, memcpy.
  rewrite Hfull.
  replace (to_size (to_int (size_sub (buf_len c) (buf_len c)))) with 0
    by (unfold size_sub; now rewrite Z.sub_diag).
  cbn [Z.to_nat seq map app]. rewrite Z.add_0_r, firstn_skipn.
  destruct c; cbn in *. now subst.
Qed.

(** [fbw_write(ctx, data, 0, true)] on a context within its capacity:
    with an empty staging buffer it returns 0 and does nothing at all;
    otherwise it is exactly one commit of the buffered bytes, whose code
    it returns.  This covers the full buffer a failed commit left behind:
    the flush tries that commit again. *)
Theorem flush_is_one_commit (fuel : nat) (c : wctx) (d : data_ptr)
  (e : wenv) :
  wf_ctx c -> within_capacity c ->
  0 < buf_len c -> buf_bytes c <= buf_len c ->
  fbw_write CONFIG_FBW_ERASE (S (S fuel)) (Some c) (Some d) 0 true e
  = if buf_bytes c =? 0 then Some (0, Some c, e)
    else let '(rc, c', e') := flash_sync CONFIG_FBW_ERASE c e in
         Some (rc, Some c', e').
Proof.
  intros Hwf Hinv Hpos Hle.
  assert (Hlen : is_size 0) by (unfold is_size; cbn; lia).
  assert (Hfit : bytes_written c + buf_bytes c + 0 <= SIZE_MAX).
  { destruct Hwf as (_ & _ & _ & _ & Ha).
    unfold within_capacity, is_size in *. lia. }
  pose proof (capacity_test_exact c 0 Hwf Hlen Hfit) as Htest.
  destruct Hwf as (HL & Hbb & Hbw & _).
  unfold fbw_write. rewrite Htest.
  replace (bytes_written c + buf_bytes c + 0 >? available c) with false
    by (symmetry; rewrite Z.gtb_ltb; apply Z.ltb_ge;
        unfold within_capacity in Hinv; lia).
  assert (Hz : to_size 0 = 0) by reflexivity.
  assert (Hs0 : size_sub 0 0 = 0) by reflexivity.
  rewrite write_loop_unfold, Hz, Hs0, to_size_buf_empty_bytes.
  rewrite size_sub_exact by (unfold is_size in *; lia).
  destruct (Z.eq_dec (buf_bytes c) (buf_len c)) as [Hfull | Hpart].
  - (* a full buffer: the loop commits it *)
    rewrite <- Hfull, Z.sub_diag. cbn [Z.geb Z.compare].
    rewrite (fill_buffer_nothing c d 0 Hfull) by (unfold is_size in *; lia).
    replace (buf_bytes c =? 0) with false
      by (symmetry; apply Z.eqb_neq; lia).
    destruct (flash_sync CONFIG_FBW_ERASE c e) as [[r c3] e3] eqn:Hsync.
    destruct (nonzero r) eqn:Hr; [reflexivity|].
    apply nonzero_false in Hr. subst r.
    destruct (flash_sync_cases _ _ _ _ _ _ Hsync)
      as [(HfL & _) (evs & _ & Hcase)].
    destruct Hcase as [(Hrc & _) | (_ & Hbb3 & _)]; [congruence|].
    rewrite write_loop_unfold, to_size_buf_empty_bytes, HfL, Hbb3.
    rewrite to_size_int_add, to_size_buf_empty_bytes, Hfull, Hz.
    unfold size_sub at 2. rewrite Z.sub_diag, Hz. cbn [Z.add]. rewrite Hz, Hs0.
    rewrite size_sub_exact by (unfold is_size in *; lia).
    replace (0 >=? buf_len c - 0) with false
      by (symmetry; rewrite Z.geb_leb; apply Z.leb_gt; lia).
    unfold place_rest. rewrite to_size_int_add, to_size_buf_empty_bytes.
    rewrite Hfull. unfold size_sub. rewrite Z.sub_diag, !Hz. cbn [Z.add].
    rewrite Hz. cbn [Z.ltb Z.compare]. rewrite Hbb3. reflexivity.
  - (* a buffer partly filled: the loop is not entered *)
    replace (0 >=? buf_len c - buf_bytes c) with false
      by (symmetry; rewrite Z.geb_leb; apply Z.leb_gt; lia).
    unfold place_rest. rewrite Hz. cbn [Z.ltb Z.compare andb].
    destruct (Z.eq_dec (buf_bytes c) 0) as [Hempty | Hsome].
    + rewrite Hempty. reflexivity.
    + replace (buf_bytes c >? 0) with true
        by (symmetry; rewrite Z.gtb_ltb; apply Z.ltb_lt;
            unfold is_size in *; lia).
      replace (buf_bytes c =? 0) with false
        by (symmetry; now apply Z.eqb_neq).
      reflexivity.
Qed.

(** ** A staging buffer of no capacity *)

(** A commit with the erase policy off and no callback, whose flash
    write succeeds. *)
Lemma flash_sync_plain (c : wctx) (e : wenv) :
  callback c = None ->
  fst (flash_write (fdev c) (to_int (size_add (offset c) (bytes_written c)))
         (firstn (Z.to_nat (buf_bytes c)) (buf c)) (buf_bytes c)
         (world (dev_protect (fdev c) false e))) = 0 ->
  exists e', flash_sync false c e = (0, advance c, e').
Proof.
  intros Hcb Hok. unfold flash_sync. cbn [andb]. unfold dev_write.
  destruct (flash_write (fdev c)
              (to_int (size_add (offset c) (bytes_written c)))
              (firstn (Z.to_nat (buf_bytes c)) (buf c)) (buf_bytes c)
              (world (dev_protect (fdev c) false e))) as [r2 w2].
  cbn [fst] in Hok. subst r2. cbn [nonzero Z.eqb negb]. rewrite Hcb.
  eexists. reflexivity.
Qed.

Lemma write_loop_zero_capacity (fuel : nat) :
  forall (c : wctx) (d : data_ptr) (len processed rc : Z) (e : wenv),
    buf_len c = 0 -> buf_bytes c = 0 -> callback c = None ->
    is_size (bytes_written c) ->
    (forall w,
        fst (flash_write (fdev c)
               (to_int (size_add (offset c) (bytes_written c))) [] 0 w) = 0) ->
    write_loop false fuel c d len processed rc e = None.
Proof.
  induction fuel as [|fuel IH]; intros c d len processed rc e
    HL Hbb Hcb Hbw Hok; [reflexivity|].
  rewrite write_loop_unfold, to_size_buf_empty_bytes, HL, Hbb.
  change (size_sub 0 0) with 0.
  replace (size_sub len (to_size processed) >=? 0) with true
    by (symmetry; rewrite Z.geb_leb; apply Z.leb_le;
        apply (to_size_range (len - to_size processed))).
  set (c2 := fill_buffer c d processed (buf_empty_bytes c)).
  destruct (fill_buffer_full c d processed (buf_empty_bytes c))
    as (Hbb2 & Hbw2 & Hoff2 & Hcb2).
  fold c2 in Hbb2, Hbw2, Hoff2, Hcb2.
  assert (Hd2 : fdev c2 = fdev c) by reflexivity.
  destruct (flash_sync_plain c2 e) as [e' Hsync].
  { congruence. }
  { rewrite Hd2, Hoff2, Hbw2, Hbb2, HL. apply Hok. }
  rewrite Hsync. cbn [nonzero Z.eqb negb].
  assert (Hbw3 : bytes_written (advance c2) = bytes_written c).
  { unfold advance. cbn [bytes_written set_buf_bytes set_bytes_written].
    rewrite Hbw2, Hbb2, HL.
    rewrite size_add_exact by (unfold is_size in *; lia). lia. }
  apply IH.
  - exact HL.
  - reflexivity.
  - exact Hcb.
  - now rewrite Hbw3.
  - rewrite Hbw3. exact Hok.
Qed.

(** [fbw_init] accepts [buf_len = 0], and with such a context
    [fbw_write] does not return as long as the driver accepts empty
    writes: with the erase policy off and no callback, whatever the number
    of loop turns allowed, the call is still in its loop, committing zero
    bytes each turn. *)
Theorem zero_capacity_write_never_returns (fuel : nat) (c : wctx)
  (d : data_ptr) (len : Z) (flush : bool) (e : wenv) :
  buf_len c = 0 -> buf_bytes c = 0 -> callback c = None ->
  is_size (bytes_written c) ->
  size_add (size_add (bytes_written c) (buf_bytes c)) len <= available c ->
  (forall w,
      fst (flash_write (fdev c)
             (to_int (size_add (offset c) (bytes_written c))) [] 0 w) = 0) ->
  fbw_write false fuel (Some c) (Some d) len flush e = None.
Proof.
  intros HL Hbb Hcb Hbw Hcap Hok. unfold fbw_write.
  replace (size_add (size_add (bytes_written c) (buf_bytes c)) len
           >? available c) with false
    by (symmetry; rewrite Z.gtb_ltb; apply Z.ltb_ge; lia).
  now rewrite (write_loop_zero_capacity fuel c d len 0 0 e HL Hbb Hcb Hbw Hok).
Qed.

(** ** fbw_init: what it decides and what it installs *)

Lemma layout_scan_inr (blen : Z) (layout : list flash_pages_layout) :
  forall t0 t,
    layout_scan blen layout t0 = inr t ->
    (forall l, In l layout -> blen <= pages_size l)
    /\ t = fold_left
             (fun t l => size_add t (size_mul (pages_count l) (pages_size l)))
             layout t0.
Proof.
  induction layout as [|l layout IH]; intros t0 t; cbn [layout_scan fold_left].
  - intros [= <-]. split; [intros l []|reflexivity].
  - destruct (blen >? pages_size l) eqn:Hgt; [discriminate|].
    rewrite Z.gtb_ltb, Z.ltb_ge in Hgt. intros Hscan.
    destruct (IH _ _ Hscan) as [Hall Ht]. split; [|exact Ht].
    intros x [<- | Hx]; [assumption | now apply Hall].
Qed.

(** With the three references present and a non-zero write-block size,
    [fbw_init] returns 0 or [-EFAULT], and 0 exactly when [buf_len] fits
    every region's page, [offset + size] (a [size_t] sum) does not exceed
    the device size and [offset] is a multiple of the write-block
    size. *)
Theorem fbw_init_decision (c : wctx) (d : @device W) (b : list byte)
  (blen off sz : Z) (cb : option fbw_callback_t) :
  write_block_size d <> 0 ->
  exists rc oc,
    fbw_init (Some c) (Some d) (Some b) blen off sz cb = Some (rc, oc)
    /\ (rc = 0 \/ rc = - EFAULT)
    /\ (rc = 0 <->
        (forall l, In l (page_layout d) -> blen <= pages_size l)
        /\ size_add off sz <= total_size (page_layout d)
        /\ off mod write_block_size d = 0).
Proof.
  intros Hwbs. unfold fbw_init. apply Z.eqb_neq in Hwbs.
  destruct (layout_scan blen (page_layout d) 0) as [r|t] eqn:Hscan.
  - pose proof (layout_scan_error _ _ _ _ Hscan) as ->.
    eexists. eexists. split; [reflexivity|]. split; [now right|].
    split; [discriminate|]. intros (Hall & _).
    rewrite (layout_scan_fits _ _ Hall) in Hscan. discriminate.
  - destruct (layout_scan_inr _ _ _ _ Hscan) as [Hall Ht].
    fold (total_size (page_layout d)) in Ht. subst t.
    destruct (size_add off sz >? total_size (page_layout d)) eqn:Hb.
    + rewrite Z.gtb_ltb, Z.ltb_lt in Hb.
      eexists. eexists. split; [reflexivity|]. split; [now right|].
      split; [discriminate|]. intros (_ & Hle & _). lia.
    + rewrite Z.gtb_ltb, Z.ltb_ge in Hb. rewrite Hwbs.
      destruct (nonzero (off mod write_block_size d)) eqn:Hal.
      * apply nonzero_true in Hal.
        eexists. eexists. split; [reflexivity|]. split; [now right|].
        split; [discriminate|]. intros (_ & _ & Hz). congruence.
      * apply nonzero_false in Hal.
        eexists. eexists. split; [reflexivity|]. split; [now left|].
        split; [auto|reflexivity].
Qed.

(** A successful [fbw_init] whose [offset + size] is representable
    installs what it was given, zeroes the counters, sets the marker to
    -1, and grants a stream that lies within the device: [size] bytes,
    or the rest of the device from [offset] when [size] is 0 (the
    [FLASH_AVAILABLE] the init test expects). *)
Theorem fbw_init_installs (ctx : option wctx) (d : @device W) (b : list byte)
  (blen off sz : Z) (cb : option fbw_callback_t) (c' : wctx) :
  is_size off -> is_size sz -> off + sz <= SIZE_MAX ->
  fbw_init ctx (Some d) (Some b) blen off sz cb = Some (0, Some c') ->
  buf c' = b /\ buf_len c' = blen /\ fdev c' = d /\ callback c' = cb
  /\ offset c' = off /\ bytes_written c' = 0 /\ buf_bytes c' = 0
  /\ last_erased_page_start_offset c' = -1
  /\ available c'
     = (if sz =? 0 then total_size (page_layout d) - off else sz)
  /\ off + available c' <= total_size (page_layout d).
Proof.
  intros Hoff Hsz Hfit. unfold fbw_init. change (- EFAULT) with (-14).
  destruct ctx as [c|]; [|discriminate].
  destruct (layout_scan blen (page_layout d) 0) as [r|t] eqn:Hscan.
  { pose proof (layout_scan_error _ _ _ _ Hscan) as ->. discriminate. }
  destruct (layout_scan_inr _ _ _ _ Hscan) as [_ Ht].
  fold (total_size (page_layout d)) in Ht. subst t.
  rewrite size_add_exact by (unfold is_size in *; lia).
  destruct (off + sz >? total_size (page_layout d)) eqn:Hb; [discriminate|].
  rewrite Z.gtb_ltb, Z.ltb_ge in Hb.
  destruct (write_block_size d =? 0); [discriminate|].
  destruct (nonzero (off mod write_block_size d)); [discriminate|].
  intros [= <-]. cbn. repeat split.
  - destruct (sz =? 0) eqn:Hz; [|reflexivity].
    apply Z.eqb_eq in Hz. subst sz. apply size_sub_exact.
    + unfold total_size. clear. 
      assert (H : forall l t, is_size t ->
                 is_size (fold_left
                            (fun t l =>
                               size_add t
                                 (size_mul (pages_count l) (pages_size l)))
                            l t)).
      { induction l as [|x l IH]; intros t Ht; [exact Ht|].
        cbn [fold_left]. apply IH. apply to_size_range. }
      apply H. unfold is_size. cbn. lia.
    + unfold is_size in *. lia.
  - destruct (sz =? 0) eqn:Hz; [|lia].
    apply Z.eqb_eq in Hz. subst sz. rewrite size_sub_exact.
    + lia.
    + unfold total_size. clear.
      assert (H : forall l t, is_size t ->
                 is_size (fold_left
                            (fun t l =>
                               size_add t
                                 (size_mul (pages_count l) (pages_size l)))
                            l t)).
      { induction l as [|x l IH]; intros t Ht; [exact Ht|].
        cbn [fold_left]. apply IH. apply to_size_range. }
      apply H. unfold is_size. cbn. lia.
    + unfold is_size in *. lia.
Qed.

(** ** Progress and occupancy *)

(** A write without [flush] that returns 0, when the exact sum is
    representable: [fbw_bytes_written] has grown by one [buf_len] for
    each [buf_len] bytes of (bytes buffered + [len]), and the remainder
    is what stays buffered. *)
Theorem fbw_write_progress (fuel : nat) (c c' : wctx) (d : data_ptr)
  (len : Z) (e e' : wenv) :
  wf_ctx c -> is_size len ->
  0 < buf_len c -> buf_bytes c <= buf_len c ->
  bytes_written c + buf_bytes c + len <= SIZE_MAX ->
  fbw_write CONFIG_FBW_ERASE fuel (Some c) (Some d) len false e
  = Some (0, Some c', e') ->
  fbw_bytes_written c'
  = fbw_bytes_written c + buf_len c * ((buf_bytes c + len) / buf_len c)
  /\ buf_bytes c' = (buf_bytes c + len) mod buf_len c
  /\ fbw_bytes_written c <= fbw_bytes_written c'.
Proof.
  intros Hwf Hlen Hpos Hle Hfit Hrun. unfold fbw_bytes_written.
  destruct (fbw_write_exact _ fuel c c' d len 0 false e e' Hwf Hlen Hfit Hrun)
    as (_ & _ & _ & [(Hrc & _) | (_ & _ & Hsum)]); [discriminate Hrc|].
  specialize (Hsum eq_refl).
  destruct Hwf as (HL & Hbb & Hbw & _).
  destruct (fbw_write_commits _ fuel c c' d len e e' HL Hpos
              ltac:(unfold is_size in *; lia) Hlen Hrun)
    as (evs & _ & _ & Hm).
  pose proof (Z.div_mod (buf_bytes c + len) (buf_len c) ltac:(lia)) as Hdm.
  assert (Hq : 0 <= (buf_bytes c + len) / buf_len c).
  { apply Z.div_pos; unfold is_size in *; lia. }
  split; [lia|]. split; [exact Hm|]. nia.
Qed.

Lemma write_loop_return_occupancy (fuel : nat) :
  forall (c c' : wctx) (d : data_ptr) (len processed rc r : Z) (e e' : wenv),
    write_loop CONFIG_FBW_ERASE fuel c d len processed rc e
    = Some (LoopReturn r c' e') ->
    buf_len c' = buf_len c /\ (buf_bytes c' = buf_len c \/ buf_bytes c' = 0).
Proof.
  induction fuel as [|fuel IH]; intros c c' d len processed rc r e e' Hrun;
    [discriminate|].
  destruct (write_loop_step _ _ _ _ _ _ _ _ _ Hrun)
    as [(_ & Hout) | (_ & r3 & c3 & e3 & Hsync & Hnext)]; [discriminate|].
  destruct (flash_sync_cases _ _ _ _ _ _ Hsync)
    as [(HfL & _) (evs & _ & Hcase)].
  cbn [fill_buffer set_buf set_buf_bytes buf_len buf_bytes] in HfL, Hcase.
  destruct Hnext as [(_ & Hout) | (_ & Hrec)].
  - injection Hout as <- <- <-. split; [exact HfL|].
    destruct Hcase as [(_ & _ & Hbb & _) | (_ & Hbb & _)]; auto.
  - destruct (IH _ _ _ _ _ _ _ _ _ Hrec) as [HL' Hbb']. rewrite HfL in *.
    auto.
Qed.

(** However a write ends, with 0 or with an error, [buf_bytes] stays
    between 0 and [buf_len], and [buf_len] is untouched; after a write
    that returns 0 the staging buffer is never full. *)
Theorem fbw_write_occupancy (fuel : nat) (c c' : wctx) (d : data_ptr)
  (len rc : Z) (flush : bool) (e e' : wenv) :
  is_size (buf_len c) -> 0 < buf_len c -> 0 <= buf_bytes c <= buf_len c ->
  is_size len ->
  fbw_write CONFIG_FBW_ERASE fuel (Some c) (Some d) len flush e
  = Some (rc, Some c', e') ->
  buf_len c' = buf_len c
  /\ 0 <= buf_bytes c' <= buf_len c
  /\ (rc = 0 -> buf_bytes c' < buf_len c).
Proof.
  intros HL Hpos Hbb Hlen Hrun. unfold fbw_write in Hrun.
  destruct (size_add (size_add (bytes_written c) (buf_bytes c)) len
            >? available c).
  { injection Hrun as <- <- _. repeat split; try lia; discriminate. }
  destruct (write_loop CONFIG_FBW_ERASE fuel c d len 0 0 e)
    as [out|] eqn:Hloop; [|discriminate].
  assert (Hz : to_size 0 = 0) by reflexivity.
  assert (HP : to_size 0 <= len) by (unfold is_size in Hlen; rewrite Hz; lia).
  destruct out as [r c1 e1 | r c1 p1 e1].
  - injection Hrun as <- <- _.
    pose proof (write_loop_mod _ fuel c d len 0 0 e _ Hlen HP Hloop) as Hr.
    cbn in Hr.
    destruct (write_loop_return_occupancy _ _ _ _ _ _ _ _ _ _ Hloop)
      as [HL1 [Hb | Hb]]; repeat split; try lia; congruence.
  - destruct (write_loop_commits _ fuel c c1 d len 0 p1 0 r e e1 HL Hpos Hbb
                Hlen HP Hloop) as (HL1 & Hp1 & Hbb1 & evs & _ & _ & Hm).
    pose proof (Z.mod_pos_bound (buf_bytes c + (len - to_size 0)) (buf_len c)
                  Hpos) as Hbound.
    assert (Hp0 : 0 <= to_size p1) by apply to_size_range.
    assert (Hc2 : buf_len (place_rest c1 d len p1) = buf_len c
                  /\ 0 <= buf_bytes (place_rest c1 d len p1) < buf_len c).
    { unfold place_rest. destruct (to_size p1 <? len) eqn:Hlt.
      - apply Z.ltb_lt in Hlt. cbn.
        rewrite size_sub_exact by (assumption || lia).
        rewrite size_add_exact; unfold is_size in *; lia.
      - apply Z.ltb_ge in Hlt. lia. }
    set (c2 := place_rest c1 d len p1) in *.
    destruct Hc2 as [HL2 Hbb2].
    destruct (flush && (buf_bytes c2 >? 0)).
    + destruct (flash_sync CONFIG_FBW_ERASE c2 e1) as [[r3 c3] e3] eqn:Hsync.
      injection Hrun as _ <- _.
      destruct (flash_sync_cases _ _ _ _ _ _ Hsync)
        as [(HfL & _) (evs3 & _ & Hcase)].
      destruct Hcase as [(_ & _ & Hb & _) | (_ & Hb & _)];
        repeat split; lia.
    + injection Hrun as _ <- _. repeat split; lia.
Qed.

(** ** The bytes that reach the flash *)

Lemma INT_MAX_le_SIZE_MAX : INT_MAX <= SIZE_MAX.
Proof. discriminate. Qed.

Lemma write_loop_stream (fuel : nat) :
  forall (c c' : wctx) (d : data_ptr) (len processed processed' rc r : Z)
         (e e' : wenv),
    is_size (buf_len c) -> 0 < buf_len c -> 0 <= buf_bytes c <= buf_len c ->
    buf_bytes c <= Z.of_nat (length (buf c)) ->
    0 <= processed <= len -> len <= INT_MAX ->
    write_loop CONFIG_FBW_ERASE fuel c d len processed rc e
    = Some (LoopDone r c' processed' e') ->
    processed <= processed' <= len
    /\ buf_len c' = buf_len c
    /\ 0 <= buf_bytes c' <= Z.of_nat (length (buf c'))
    /\ buf_bytes c' + (len - processed') < buf_len c
    /\ exists evs,
         trace e' = trace e ++ evs
         /\ written evs ++ firstn (Z.to_nat (buf_bytes c')) (buf c')
            = firstn (Z.to_nat (buf_bytes c)) (buf c)
              ++ data_range d processed (processed' - processed).
Proof.
  pose proof INT_MAX_le_SIZE_MAX as Hmax.
  induction fuel as [|fuel IH]; intros c c' d len processed processed' rc r
    e e' HL Hpos Hbb Hbuf HP Hlen Hrun; [discriminate|].
  assert (HPs : to_size processed = processed).
  { apply to_size_small. unfold is_size. lia. }
  assert (HE : to_size (buf_empty_bytes c) = buf_len c - buf_bytes c).
  { rewrite to_size_buf_empty_bytes. apply size_sub_exact; [assumption|lia]. }
  destruct (write_loop_step _ _ _ _ _ _ _ _ _ Hrun)
    as [(Hcond & Hout) | (Hcond & r3 & c3 & e3 & Hsync & Hnext)];
    rewrite HE, HPs, size_sub_exact in Hcond by (unfold is_size; lia).
  - injection Hout as -> -> -> ->.
    repeat split; try lia.
    exists []. rewrite app_nil_r. split; [reflexivity|].
    rewrite Z.sub_diag. cbn. now rewrite app_nil_r.
  - destruct Hnext as [(_ & Hout) | (-> & Hrec)]; [discriminate|].
    destruct (flash_sync_cases _ _ _ _ _ _ Hsync)
      as [(HfL & _) (evs0 & _ & Hcase)].
    destruct Hcase as [(Hr & _) | (_ & Hbb3 & _)]; [congruence|].
    destruct (flash_sync_trace _ _ _ _ _ _ Hsync) as (evs1 & Ht1 & _ & Hw1).
    destruct (Hw1 eq_refl) as [Hw _]. clear Hw1.
    cbn [fill_buffer set_buf set_buf_bytes buf_len buf_bytes buf] in HfL, Hw.
    rewrite HE in Hw.
    replace (buf_len c) with (buf_bytes c + (buf_len c - buf_bytes c)) in Hw
      at 1 by ring.
    rewrite memcpy_prefix in Hw by lia.
    assert (HEi : buf_empty_bytes c = buf_len c - buf_bytes c).
    { unfold buf_empty_bytes. rewrite size_sub_exact by (assumption || lia).
      apply to_int_small. unfold INT_MIN, INT_MAX, SIZE_BITS in *. cbn in *.
      lia. }
    assert (HP' : int_add processed (buf_empty_bytes c)
                  = processed + (buf_len c - buf_bytes c)).
    { unfold int_add. rewrite HEi. apply to_int_small.
      unfold INT_MIN, INT_MAX, SIZE_BITS in *. cbn in *. lia. }
    rewrite HP' in Hrec.
    destruct (IH c3 c' d len (processed + (buf_len c - buf_bytes c))
                processed' 0 r e3 e'
                ltac:(now rewrite HfL) ltac:(now rewrite HfL)
                ltac:(rewrite HfL, Hbb3; lia) ltac:(rewrite Hbb3; lia)
                ltac:(lia) Hlen Hrec)
      as (Hp' & HL' & Hbb' & Hrest & evs2 & Ht2 & Hw2).
    rewrite HfL in *. rewrite Hbb3 in Hw2. cbn [Z.to_nat firstn app] in Hw2.
    repeat split; try lia.
    exists (evs1 ++ evs2). split; [now rewrite Ht2, Ht1, app_assoc|].
    rewrite written_app, <- app_assoc, Hw2, Hw, <- app_assoc.
    f_equal. rewrite data_range_app by lia. f_equal. ring.
Qed.

(** No byte is lost, duplicated or reordered.  After a write that
    returns 0 with [len] no larger than [INT_MAX], the bytes handed to
    [flash_write] during the call, followed by the bytes now buffered, are
    the bytes buffered before the call followed by the [len] bytes of
    [data]. *)
Theorem fbw_write_stream (fuel : nat) (c c' : wctx) (d : data_ptr)
  (len : Z) (flush : bool) (e e' : wenv) :
  is_size (buf_len c) -> 0 < buf_len c -> 0 <= buf_bytes c <= buf_len c ->
  buf_bytes c <= Z.of_nat (length (buf c)) ->
  0 <= len <= INT_MAX ->
  fbw_write CONFIG_FBW_ERASE fuel (Some c) (Some d) len flush e
  = Some (0, Some c', e') ->
  exists evs,
    trace e' = trace e ++ evs
    /\ written evs ++ firstn (Z.to_nat (buf_bytes c')) (buf c')
       = firstn (Z.to_nat (buf_bytes c)) (buf c) ++ data_range d 0 len.
Proof.
  pose proof INT_MAX_le_SIZE_MAX as Hmax.
  intros HL Hpos Hbb Hbuf Hlen Hrun. unfold fbw_write in Hrun.
  destruct (size_add (size_add (bytes_written c) (buf_bytes c)) len
            >? available c); [discriminate|].
  destruct (write_loop CONFIG_FBW_ERASE fuel c d len 0 0 e)
    as [out|] eqn:Hloop; [|discriminate].
  assert (Hz : to_size 0 = 0) by reflexivity.
  assert (Hls : is_size len) by (unfold is_size; lia).
  destruct out as [r c1 e1 | r c1 p1 e1].
  { pose proof (write_loop_mod _ fuel c d len 0 0 e _ Hls
                  ltac:(rewrite Hz; lia) Hloop) as Hr.
    cbn in Hr. injection Hrun as -> _ _. congruence. }
  destruct (write_loop_stream fuel c c1 d len 0 p1 0 r e e1 HL Hpos Hbb Hbuf
              ltac:(lia) ltac:(lia) Hloop)
    as (Hp1 & HL1 & Hbb1 & Hrest & evs & Ht & Hw).
  rewrite Z.sub_0_r in Hw.
  assert (Hps : to_size p1 = p1).
  { apply to_size_small. unfold is_size. lia. }
  assert (Hc2 : written evs
                ++ firstn (Z.to_nat (buf_bytes (place_rest c1 d len p1)))
                     (buf (place_rest c1 d len p1))
                = firstn (Z.to_nat (buf_bytes c)) (buf c)
                  ++ data_range d 0 len).
  { unfold place_rest. rewrite Hps. destruct (p1 <? len) eqn:Hlt.
    - apply Z.ltb_lt in Hlt.
      cbn [buf buf_bytes set_buf set_buf_bytes].
      rewrite size_sub_exact by (unfold is_size; lia).
      rewrite size_add_exact by (unfold is_size in *; lia).
      rewrite memcpy_prefix by lia.
      rewrite app_assoc, Hw, <- app_assoc. f_equal.
      rewrite data_range_app by lia. f_equal. ring.
    - apply Z.ltb_ge in Hlt. assert (p1 = len) by lia. subst p1. exact Hw. }
  set (c2 := place_rest c1 d len p1) in *.
  destruct (flush && (buf_bytes c2 >? 0)).
  - destruct (flash_sync CONFIG_FBW_ERASE c2 e1) as [[r3 c3] e3] eqn:Hsync.
    injection Hrun as -> -> ->.
    destruct (flash_sync_cases _ _ _ _ _ _ Hsync) as [_ (evs0 & _ & Hcase)].
    destruct Hcase as [(Hr & _) | (_ & Hbb3 & _)]; [congruence|].
    destruct (flash_sync_trace _ _ _ _ _ _ Hsync) as (evs3 & Ht3 & _ & Hw3).
    destruct (Hw3 eq_refl) as [Hw3' _].
    exists (evs ++ evs3). split; [now rewrite Ht3, Ht, app_assoc|].
    rewrite written_app, Hbb3. cbn [Z.to_nat firstn].
    rewrite app_nil_r, Hw3'. exact Hc2.
  - injection Hrun as _ <- <-. exists evs. split; [exact Ht | exact Hc2].
Qed.

(** ** Where the commits of one write go *)

Lemma length_write_offsets (t : list event) :
  length (write_offsets t) = length (writes t).
Proof.
  induction t as [|ev t IH]; [reflexivity|].
  unfold write_offsets, writes in *. cbn [flat_map].
  rewrite !length_app, IH. now destruct ev.
Qed.

Lemma map_seq_succ {A : Type} (f g : nat -> A) (n : nat) :
  (forall i, f (S i) = g i) ->
  map f (seq 0 (S n)) = f 0%nat :: map g (seq 0 n).
Proof.
  intros Hfg. cbn [seq map]. f_equal.
  rewrite <- seq_shift, map_map. apply map_ext. exact Hfg.
Qed.

Lemma write_loop_sequence (fuel : nat) :
  forall (c c' : wctx) (d : data_ptr) (len processed processed' rc r : Z)
         (e e' : wenv),
    is_size (buf_len c) -> 0 < buf_len c -> 0 <= buf_bytes c <= buf_len c ->
    is_size len -> to_size processed <= len -> 0 <= bytes_written c ->
    bytes_written c + buf_bytes c + (len - to_size processed) <= SIZE_MAX ->
    write_loop CONFIG_FBW_ERASE fuel c d len processed rc e
    = Some (LoopDone r c' processed' e') ->
    exists evs n,
      trace e' = trace e ++ evs
      /\ write_offsets evs
         = map (fun i =>
                  to_int (size_add (offset c)
                            (bytes_written c + Z.of_nat i * buf_len c)))
             (seq 0 n)
      /\ hooks evs
         = match callback c with
           | Some _ =>
               map (fun i =>
                      (buf_len c,
                       size_add (offset c)
                         (bytes_written c + Z.of_nat i * buf_len c)))
                 (seq 0 n)
           | None => []
           end.
Proof.
  induction fuel as [|fuel IH]; intros c c' d len processed processed' rc r
    e e' HL Hpos Hbb Hlen HP Hbw Hfit Hrun; [discriminate|].
  assert (HP0 : 0 <= to_size processed) by apply to_size_range.
  assert (HE : to_size (buf_empty_bytes c) = buf_len c - buf_bytes c).
  { rewrite to_size_buf_empty_bytes. apply size_sub_exact; [assumption|lia]. }
  destruct (write_loop_step _ _ _ _ _ _ _ _ _ Hrun)
    as [(_ & Hout) | (Hcond & r3 & c3 & e3 & Hsync & Hnext)].
  - injection Hout as -> -> -> ->. exists [], 0%nat.
    rewrite app_nil_r. cbn. repeat split. now destruct (callback c).
  - rewrite HE, size_sub_exact in Hcond by (assumption || lia).
    destruct Hnext as [(_ & Hout) | (-> & Hrec)]; [discriminate|].
    destruct (flash_sync_cases _ _ _ _ _ _ Hsync)
      as [(HfL & _ & Hfo & _ & Hfc) (evs0 & Ht0 & Hcase)].
    destruct Hcase as [(Hr & _) | (Hbw3 & Hbb3 & _ & Hh)]; [congruence|].
    destruct (flash_sync_trace _ _ _ _ _ _ Hsync) as (evs1 & Ht1 & _ & Hw1).
    destruct (Hw1 eq_refl) as [_ Ho]. clear Hw1.
    assert (evs0 = evs1) by (apply (app_inv_head (trace e)); congruence).
    subst evs0.
    cbn [fill_buffer set_buf set_buf_bytes buf_len buf_bytes bytes_written
                     offset callback] in HfL, Hfo, Hfc, Hbw3, Hh, Ho.
    rewrite size_add_exact in Hbw3 by (unfold is_size in *; lia).
    assert (HP' : to_size (int_add processed (buf_empty_bytes c))
                  = to_size processed + (buf_len c - buf_bytes c)).
    { rewrite to_size_int_add, HE. apply to_size_small.
      unfold is_size in *. lia. }
    destruct (IH c3 c' d len (int_add processed (buf_empty_bytes c))
                processed' 0 r e3 e'
                ltac:(now rewrite HfL) ltac:(now rewrite HfL)
                ltac:(rewrite HfL, Hbb3; lia) Hlen
                ltac:(rewrite HP'; lia) ltac:(rewrite Hbw3; lia)
                ltac:(rewrite Hbw3, Hbb3, HP'; lia) Hrec)
      as (evs2 & n2 & Ht2 & Ho2 & Hh2).
    rewrite HfL, Hfo, Hfc, Hbw3 in *.
    exists (evs1 ++ evs2), (S n2).
    split; [now rewrite Ht2, Ht1, app_assoc|]. split.
    + rewrite write_offsets_app, Ho, Ho2.
      rewrite (map_seq_succ _
                 (fun i => to_int (size_add (offset c)
                                     (bytes_written c + buf_len c
                                      + Z.of_nat i * buf_len c)))).
      * cbn [app Z.of_nat Z.mul]. now rewrite Z.add_0_r.
      * intros i. rewrite Nat2Z.inj_succ. do 2 f_equal. ring.
    + rewrite hooks_app, Hh2. destruct (callback c).
      * rewrite Hh.
        rewrite (map_seq_succ _
                   (fun i => (buf_len c,
                              size_add (offset c)
                                (bytes_written c + buf_len c
                                 + Z.of_nat i * buf_len c)))).
        -- cbn [app Z.of_nat Z.mul]. now rewrite Z.add_0_r.
        -- intros i. rewrite Nat2Z.inj_succ. do 2 f_equal. ring.
      * destruct Hh as [-> _]. reflexivity.
Qed.

Lemma fbw_write_sequence (fuel : nat) (c c' : wctx) (d : data_ptr)
  (len : Z) (e e' : wenv) :
  wf_ctx c -> is_size len ->
  0 < buf_len c -> buf_bytes c <= buf_len c ->
  bytes_written c + buf_bytes c + len <= SIZE_MAX ->
  fbw_write CONFIG_FBW_ERASE fuel (Some c) (Some d) len false e
  = Some (0, Some c', e') ->
  exists evs,
    trace e' = trace e ++ evs
    /\ write_offsets evs
       = map (fun i =>
                to_int (size_add (offset c)
                          (bytes_written c + Z.of_nat i * buf_len c)))
           (seq 0 (Z.to_nat ((buf_bytes c + len) / buf_len c)))
    /\ hooks evs
       = match callback c with
         | Some _ =>
             map (fun i =>
                    (buf_len c,
                     size_add (offset c)
                       (bytes_written c + Z.of_nat i * buf_len c)))
               (seq 0 (Z.to_nat ((buf_bytes c + len) / buf_len c)))
         | None => []
         end.
Proof.
  intros Hwf Hlen Hpos Hle Hfit Hrun.
  destruct Hwf as (HL & Hbb & Hbw & _).
  destruct (fbw_write_commits _ fuel c c' d len e e' HL Hpos
              ltac:(unfold is_size in *; lia) Hlen Hrun)
    as (evs' & Ht' & Hn & _).
  unfold fbw_write in Hrun.
  destruct (size_add (size_add (bytes_written c) (buf_bytes c)) len
            >? available c); [discriminate|].
  destruct (write_loop CONFIG_FBW_ERASE fuel c d len 0 0 e)
    as [out|] eqn:Hloop; [|discriminate].
  assert (Hz : to_size 0 = 0) by reflexivity.
  destruct out as [r c1 e1 | r c1 p1 e1].
  { pose proof (write_loop_mod _ fuel c d len 0 0 e _ Hlen
                  ltac:(unfold is_size in *; rewrite Hz; lia) Hloop) as Hr.
    cbn in Hr. injection Hrun as -> _ _. congruence. }
  cbn [andb] in Hrun. injection Hrun as _ _ <-.
  destruct (write_loop_sequence fuel c c1 d len 0 p1 0 r e e1 HL Hpos
              ltac:(unfold is_size in *; lia) Hlen
              ltac:(unfold is_size in *; rewrite Hz; lia)
              ltac:(unfold is_size in *; lia)
              ltac:(rewrite Hz; lia) Hloop)
    as (evs & n & Ht & Ho & Hh).
  assert (evs' = evs) by (apply (app_inv_head (trace e)); congruence).
  subst evs'.
  assert (Hnn : n = Z.to_nat ((buf_bytes c + len) / buf_len c)).
  { rewrite <- Hn, Nat2Z.id, <- length_write_offsets, Ho.
    now rewrite length_map, length_seq. }
  subst n. exists evs. auto.
Qed.

(** The commits of one write are contiguous.  In a write without
    [flush] that returns 0 (the exact sum representable), the [i]-th
    flash write goes to [offset + bytes_written + i * buf_len], where
    [bytes_written] is the counter before the call: increasing, one
    [buf_len] apart, starting where the stream stood. *)
Theorem fbw_write_offsets_contiguous (fuel : nat) (c c' : wctx)
  (d : data_ptr) (len : Z) (e e' : wenv) :
  wf_ctx c -> is_size len ->
  0 < buf_len c -> buf_bytes c <= buf_len c ->
  bytes_written c + buf_bytes c + len <= SIZE_MAX ->
  fbw_write CONFIG_FBW_ERASE fuel (Some c) (Some d) len false e
  = Some (0, Some c', e') ->
  exists evs,
    trace e' = trace e ++ evs
    /\ write_offsets evs
       = map (fun i =>
                to_int (size_add (offset c)
                          (bytes_written c + Z.of_nat i * buf_len c)))
           (seq 0 (Z.to_nat ((buf_bytes c + len) / buf_len c))).
Proof.
  intros Hwf Hlen Hpos Hle Hfit Hrun.
  destruct (fbw_write_sequence fuel c c' d len e e' Hwf Hlen Hpos Hle Hfit
              Hrun) as (evs & Ht & Ho & _).
  exists evs. auto.
Qed.

(** With a callback installed, such a write calls it once per commit
    and for nothing else: the [i]-th call has length [buf_len] and
    offset [offset + bytes_written + i * buf_len]. *)
Theorem fbw_write_hook_calls (fuel : nat) (c c' : wctx) (d : data_ptr)
  (len : Z) (cb : fbw_callback_t) (e e' : wenv) :
  wf_ctx c -> is_size len ->
  0 < buf_len c -> buf_bytes c <= buf_len c ->
  bytes_written c + buf_bytes c + len <= SIZE_MAX ->
  callback c = Some cb ->
  fbw_write CONFIG_FBW_ERASE fuel (Some c) (Some d) len false e
  = Some (0, Some c', e') ->
  exists evs,
    trace e' = trace e ++ evs
    /\ hooks evs
       = map (fun i =>
                (buf_len c,
                 size_add (offset c)
                   (bytes_written c + Z.of_nat i * buf_len c)))
           (seq 0 (Z.to_nat ((buf_bytes c + len) / buf_len c))).
Proof.
  intros Hwf Hlen Hpos Hle Hfit Hcb Hrun.
  destruct (fbw_write_sequence fuel c c' d len e e' Hwf Hlen Hpos Hle Hfit
              Hrun) as (evs & Ht & _ & Hh).
  rewrite Hcb in Hh. exists evs. auto.
Qed.

End WholeCalls.

Lemma total_size_range (layout : list flash_pages_layout) :
  is_size (total_size layout).
Proof.
  unfold total_size.
  assert (H : forall l t, is_size t ->
             is_size (fold_left
                        (fun t l =>
                           size_add t (size_mul (pages_count l) (pages_size l)))
                        l t)).
  { induction l as [|x l IH]; intros t Ht; [exact Ht|].
    cbn [fold_left]. apply IH. apply to_size_range. }
  apply H. unfold is_size. cbn. lia.
Qed.

Section ErasePolicy.

Context {W : Type}.

Abbreviation ectx := (@fbw_ctx W).
Abbreviation eenv := (@env W).

(** ** What the erase marker remembers *)

(** The marker remembers one page.  Whatever was erased before, once
    [fbw_erase] has been called for a page (and resolved it), a call for
    a different page erases that page: going back to a page erased
    earlier erases it again. *)
Theorem fbw_erase_remembers_one_page (c c1 c2 : ectx) (off_b off_a rc1 rc2 : Z)
  (page_b page_a : flash_pages_info) (e e1 e2 : eenv) :
  flash_get_page_info_by_offs (fdev c) off_b = (0, page_b) ->
  flash_get_page_info_by_offs (fdev c) off_a = (0, page_a) ->
  start_offset page_a <> start_offset page_b ->
  fbw_erase c off_b e = (rc1, c1, e1) ->
  fbw_erase c1 off_a e1 = (rc2, c2, e2) ->
  trace e2 = trace e1 ++ [EvProtect false;
                          EvErase (start_offset page_a) (size page_a);
                          EvProtect true]
  /\ last_erased_page_start_offset c2 = start_offset page_a.
Proof.
  intros Hpb Hpa Hne He1 He2.
  assert (Hc1 : fdev c1 = fdev c
                /\ last_erased_page_start_offset c1 = start_offset page_b).
  { destruct (fbw_erase_cases _ _ _ _ _ _ _ _ Hpb He1)
      as [(Hprc & _) | [(_ & Heq & _ & -> & _) | (_ & _ & -> & _)]];
      [congruence | auto | auto]. }
  destruct Hc1 as [Hd Hm]. rewrite <- Hd in Hpa.
  destruct (fbw_erase_cases _ _ _ _ _ _ _ _ Hpa He2)
    as [(Hprc & _) | [(_ & Heq & _) | (_ & _ & -> & Ht & _)]];
    [congruence | congruence | auto].
Qed.

(** ** The page a commit erases *)

Lemma flash_sync_erases (cfg : bool) (c c' : ectx) (rc : Z) (e e' : eenv) :
  flash_sync cfg c e = (rc, c', e') ->
  erases (trace e')
  = erases (trace (snd (if cfg
                        then fbw_erase c
                               (to_int (size_add
                                          (size_add (offset c)
                                             (bytes_written c))
                                          (buf_bytes c))) e
                        else (0, c, e)))).
Proof.
  unfold flash_sync.
  destruct (if cfg
            then fbw_erase c
                   (to_int (size_add (size_add (offset c) (bytes_written c))
                              (buf_bytes c))) e
            else (0, c, e)) as [[r1 c1] e1].
  cbn [fst snd].
  destruct (cfg && (r1 <? 0)); [now intros [= _ _ <-]|].
  unfold dev_write.
  match goal with
  | |- context [flash_write ?d ?o ?b ?n ?w] =>
      destruct (flash_write d o b n w) as [r2 w2]
  end.
  assert (Hblk : forall b1 b2 o dt post,
             erases post = [] ->
             erases (((trace e1 ++ [EvProtect b1]) ++ [EvWrite o dt])
                     ++ [EvProtect b2] ++ post)
             = erases (trace e1)).
  { intros b1 b2 o dt post Hpost.
    rewrite !erases_app, Hpost. cbn. now rewrite !app_nil_r. }
  destruct (nonzero r2).
  { intros [= _ _ <-]. rewrite dev_protect_trace. cbn [trace].
    rewrite dev_protect_trace.
    rewrite <- (app_nil_r [EvProtect true]). now apply Hblk. }
  destruct (callback c1) as [cb|].
  - unfold dev_read.
    match goal with
    | |- context [flash_read ?d ?o ?b ?n ?w] =>
        destruct (flash_read d o b n w) as [[r3 got] w3]
    end.
    cbn [set_buf buf buf_bytes].
    destruct (nonzero r3).
    + intros [= _ _ <-]. cbn [trace]. rewrite dev_protect_trace. cbn [trace].
      rewrite dev_protect_trace. rewrite <- app_assoc. now apply Hblk.
    + unfold call_hook.
      match goal with
      | |- context [cb ?b ?n ?o ?w] => destruct (cb b n o w) as [r4 w4]
      end.
      intros [= _ _ <-]. cbn [trace]. rewrite dev_protect_trace. cbn [trace].
      rewrite dev_protect_trace. rewrite <- !app_assoc.
      rewrite (app_assoc (trace e1)), (app_assoc (trace e1 ++ _)).
      now apply Hblk.
  - intros [= _ _ <-]. rewrite dev_protect_trace. cbn [trace].
    rewrite dev_protect_trace.
    rewrite <- (app_nil_r [EvProtect true]). now apply Hblk.
Qed.

(** With the erase policy on, a commit erases at most one page, and it
    is the page holding [offset + bytes_written + buf_bytes], the byte
    after the data being written, not the page the data goes to; it is
    erased unless the marker names it already.  With the policy off a
    commit erases nothing. *)
Theorem flash_sync_erases_next_page (cfg : bool) (c c' : ectx) (rc : Z)
  (page : flash_pages_info) (e e' : eenv) :
  flash_get_page_info_by_offs (fdev c)
    (to_int (size_add (size_add (offset c) (bytes_written c)) (buf_bytes c)))
  = (0, page) ->
  flash_sync cfg c e = (rc, c', e') ->
  erases (trace e')
  = erases (trace e)
    ++ (if cfg && negb (last_erased_page_start_offset c =? start_offset page)
        then [(start_offset page, size page)]
        else []).
Proof.
  intros Hp Hsync. rewrite (flash_sync_erases cfg c c' rc e e' Hsync).
  destruct cfg; cbn [andb snd]; [|now rewrite app_nil_r].
  destruct (fbw_erase c
              (to_int (size_add (size_add (offset c) (bytes_written c))
                         (buf_bytes c))) e) as [[r1 c1] e1] eqn:He.
  cbn [snd].
  destruct (fbw_erase_cases _ _ _ _ _ _ _ _ Hp He)
    as [(Hprc & _) | [(_ & Heq & _ & _ & ->) | (_ & Hne & _ & Ht & _)]].
  - congruence.
  - apply Z.eqb_eq in Heq. rewrite Heq. cbn. now rewrite app_nil_r.
  - apply Z.eqb_neq in Hne. rewrite Hne, Ht, erases_app. reflexivity.
Qed.

(** ** A region that wraps *)

(** The bounds test of [fbw_init] adds [offset] and [size] as [size_t]
    values.  When the exact sum is not representable and the wrapped sum
    does not exceed the device size, [fbw_init] returns 0 and grants
    [size] bytes from [offset]: a stream that ends beyond any device. *)
Theorem fbw_init_accepts_wrapped_region (c : ectx) (d : @device W)
  (b : list byte) (blen off sz : Z) (cb : option fbw_callback_t) :
  is_size off -> is_size sz ->
  SIZE_MAX < off + sz ->
  off + sz - SIZE_MOD <= total_size (page_layout d) ->
  (forall l, In l (page_layout d) -> blen <= pages_size l) ->
  write_block_size d <> 0 ->
  off mod write_block_size d = 0 ->
  exists c',
    fbw_init (Some c) (Some d) (Some b) blen off sz cb = Some (0, Some c')
    /\ offset c' = off /\ available c' = sz
    /\ total_size (page_layout d) < offset c' + available c'.
Proof.
  intros Hoff Hsz Hwrap Hle Hfit Hwbs Hal. unfold fbw_init.
  rewrite (layout_scan_fits _ _ Hfit). fold (total_size (page_layout d)).
  assert (Hsum : size_add off sz = off + sz - SIZE_MOD).
  { unfold size_add, to_size, is_size, SIZE_MAX in *.
    rewrite SIZE_MOD_val in *. symmetry.
    apply Z.mod_unique with (q := 1); lia. }
  rewrite Hsum.
  replace (off + sz - SIZE_MOD >? total_size (page_layout d)) with false
    by (symmetry; rewrite Z.gtb_ltb; apply Z.ltb_ge; lia).
  apply Z.eqb_neq in Hwbs. rewrite Hwbs, Hal. cbn [nonzero Z.eqb negb].
  eexists. split; [reflexivity|]. cbn.
  assert (Hnz : (sz =? 0) = false).
  { apply Z.eqb_neq. unfold is_size, SIZE_MAX in *. lia. }
  rewrite Hnz. repeat split.
  pose proof (total_size_range (page_layout d)) as Ht.
  unfold is_size in Ht. lia.
Qed.

End ErasePolicy.

(** * Instances of the further properties on the small device *)

Lemma fbw_write_returns_witness :
  fbw_write true (S (S (Z.to_nat 20))) (Some (stream_ctx None))
    (Some write_buf) 20 true (sim_env 0) <> None.
Proof.
  apply (fbw_write_returns true (stream_ctx None) write_buf 20 true
           (sim_env 0)).
  - by_computation.
  - by_computation.
  - reflexivity.
Defined.

Lemma zero_capacity_write_never_returns_witness :
  buf_len empty_buf_ctx = 0
  /\ fbw_write false 50 (Some empty_buf_ctx) (Some write_buf) 4 false
       (sim_env 0) = None.
Proof.
  split; [reflexivity|].
  apply (zero_capacity_write_never_returns 50 empty_buf_ctx write_buf 4 false
           (sim_env 0)).
  - reflexivity.
  - reflexivity.
  - reflexivity.
  - by_computation.
  - by_computation.
  - intros w. reflexivity.
Defined.

Lemma fbw_write_no_space_witness :
  fbw_write true 5 (Some (ctx_of_write one_byte)) (Some write_buf) 16 false
    (env_of_write one_byte)
  = Some (- ENOMEM, Some (ctx_of_write one_byte), env_of_write one_byte).
Proof.
  apply (fbw_write_no_space true 5 (ctx_of_write one_byte) write_buf 16 false
           (env_of_write one_byte)).
  - by_computation.
  - by_computation.
  - by_computation.
  - reflexivity.
Defined.

Lemma fbw_write_within_capacity_witness :
  within_capacity (ctx_of_write refused_write).
Proof.
  apply (fbw_write_within_capacity true 4 tiny_ctx (ctx_of_write refused_write)
           write_buf 20 (- EIO) false (sim_env 0)
           (env_of_write refused_write)).
  - by_computation.
  - by_computation.
  - by_computation.
  - by_computation.
  - vm_compute. reflexivity.
Defined.

Lemma flash_sync_failure_no_callback_witness :
  fst (fst refused_commit) = - EIO
  /\ bytes_written (snd (fst refused_commit)) = 0
  /\ buf_bytes (snd (fst refused_commit)) = 8.
Proof.
  split; [reflexivity|].
  apply (flash_sync_failure_no_callback true
           (fill_buffer tiny_ctx write_buf 0 8) (snd (fst refused_commit))
           (- EIO) (sim_env 0) (snd refused_commit)).
  - reflexivity.
  - vm_compute. reflexivity.
  - by_computation.
Defined.

Lemma fbw_write_progress_witness :
  fbw_bytes_written (ctx_of_write two_buffers) = 0 + 8 * ((3 + 16) / 8)
  /\ buf_bytes (ctx_of_write two_buffers) = (3 + 16) mod 8
  /\ 0 <= fbw_bytes_written (ctx_of_write two_buffers).
Proof.
  apply (fbw_write_progress true 4 (ctx_of_write three_bytes)
           (ctx_of_write two_buffers) write_buf 16 (env_of_write three_bytes)
           (env_of_write two_buffers)).
  - by_computation.
  - by_computation.
  - reflexivity.
  - by_computation.
  - by_computation.
  - vm_compute. reflexivity.
Defined.

Lemma fbw_write_occupancy_witness :
  buf_len (ctx_of_write refused_write) = 8
  /\ 0 <= buf_bytes (ctx_of_write refused_write) <= 8
  /\ (- EIO = 0 -> buf_bytes (ctx_of_write refused_write) < 8).
Proof.
  apply (fbw_write_occupancy true 4 tiny_ctx (ctx_of_write refused_write)
           write_buf 20 (- EIO) false (sim_env 0)
           (env_of_write refused_write)).
  - by_computation.
  - reflexivity.
  - by_computation.
  - by_computation.
  - vm_compute. reflexivity.
Defined.

Lemma short_write_only_buffers_witness :
  exists c',
    fbw_write true 1 (Some (stream_ctx None)) (Some write_buf) 7 false
      (sim_env 0) = Some (0, Some c', sim_env 0)
    /\ bytes_written c' = 0
    /\ buf_bytes c' = 0 + 7
    /\ firstn (Z.to_nat (buf_bytes c')) (buf c')
       = firstn (Z.to_nat 0) (repeat x00 8) ++ data_range write_buf 0 7.
Proof.
  apply (short_write_only_buffers true 0 (stream_ctx None) write_buf 7
           (sim_env 0)).
  - by_computation.
  - by_computation.
  - by_computation.
  - reflexivity.
  - by_computation.
Defined.

Lemma fbw_write_stream_witness :
  exists evs,
    trace (env_of_write two_buffers)
    = trace (env_of_write three_bytes) ++ evs
    /\ written evs
       ++ firstn (Z.to_nat (buf_bytes (ctx_of_write two_buffers)))
            (buf (ctx_of_write two_buffers))
       = firstn (Z.to_nat 3) (buf (ctx_of_write three_bytes))
         ++ data_range write_buf 0 16.
Proof.
  apply (fbw_write_stream true 4 (ctx_of_write three_bytes)
           (ctx_of_write two_buffers) write_buf 16 false
           (env_of_write three_bytes) (env_of_write two_buffers)).
  - by_computation.
  - reflexivity.
  - by_computation.
  - by_computation.
  - by_computation.
  - vm_compute. reflexivity.
Defined.

Lemma fbw_write_offsets_contiguous_witness :
  exists evs,
    trace (env_of_write two_buffers)
    = trace (env_of_write three_bytes) ++ evs
    /\ write_offsets evs = [16; 24].
Proof.
  apply (fbw_write_offsets_contiguous true 4 (ctx_of_write three_bytes)
           (ctx_of_write two_buffers) write_buf 16 (env_of_write three_bytes)
           (env_of_write two_buffers)).
  - by_computation.
  - by_computation.
  - reflexivity.
  - by_computation.
  - by_computation.
  - vm_compute. reflexivity.
Defined.

Lemma fbw_write_hook_calls_witness :
  exists evs,
    trace (env_of_write hooked_write) = trace (sim_env 0) ++ evs
    /\ hooks evs = [(8, 16); (8, 24)].
Proof.
  apply (fbw_write_hook_calls true 4 (stream_ctx (Some fbw_callback))
           (ctx_of_write hooked_write) write_buf 20 fbw_callback (sim_env 0)
           (env_of_write hooked_write)).
  - by_computation.
  - by_computation.
  - reflexivity.
  - by_computation.
  - by_computation.
  - reflexivity.
  - vm_compute. reflexivity.
Defined.

Lemma fbw_write_guarded_witness :
  exists evs,
    trace (env_of_write oversized) = trace (env_of_write one_byte) ++ evs
    /\ guarded evs.
Proof.
  apply (fbw_write_guarded true 20 (Some (ctx_of_write one_byte))
           (Some write_buf) SIZE_MAX (- EINVAL) false (env_of_write one_byte)
           (env_of_write oversized) (Some (ctx_of_write oversized))).
  vm_compute. reflexivity.
Defined.

Lemma fbw_init_decision_witness :
  exists rc oc,
    fbw_init (Some sim_ctx0) (Some sim_flash) (Some (repeat x00 8)) 8 16 0 None
    = Some (rc, oc)
    /\ (rc = 0 \/ rc = - EFAULT)
    /\ (rc = 0 <->
        (forall l, In l (page_layout sim_flash) -> 8 <= pages_size l)
        /\ size_add 16 0 <= total_size (page_layout sim_flash)
        /\ 16 mod write_block_size sim_flash = 0).
Proof.
  apply (fbw_init_decision sim_ctx0 sim_flash (repeat x00 8) 8 16 0 None).
  by_computation.
Defined.

Lemma fbw_init_installs_witness :
  buf (stream_ctx None) = repeat x00 8 /\ buf_len (stream_ctx None) = 8
  /\ fdev (stream_ctx None) = sim_flash /\ callback (stream_ctx None) = None
  /\ offset (stream_ctx None) = 16 /\ bytes_written (stream_ctx None) = 0
  /\ buf_bytes (stream_ctx None) = 0
  /\ last_erased_page_start_offset (stream_ctx None) = -1
  /\ available (stream_ctx None)
     = (if 0 =? 0 then total_size (page_layout sim_flash) - 16 else 0)
  /\ 16 + available (stream_ctx None) <= total_size (page_layout sim_flash).
Proof.
  apply (fbw_init_installs (Some sim_ctx0) sim_flash (repeat x00 8) 8 16 0 None
           (stream_ctx None)).
  - by_computation.
  - by_computation.
  - by_computation.
  - reflexivity.
Defined.

Lemma flash_sync_marks_next_page_witness :
  last_erased_page_start_offset
    (snd (fst (flash_sync true full_ctx (sim_env 0)))) = 16
  /\ forall (off2 : Z) (page2 : flash_pages_info) (e2 : @env sim_world),
       sim_page_info off2 = (0, page2) ->
       start_offset page2 = 16 ->
       fbw_erase (snd (fst (flash_sync true full_ctx (sim_env 0)))) off2 e2
       = (0, snd (fst (flash_sync true full_ctx (sim_env 0))), e2).
Proof.
  apply (flash_sync_marks_next_page full_ctx
           (snd (fst (flash_sync true full_ctx (sim_env 0)))) 0
           (snd (sim_page_info 24)) (sim_env 0)
           (snd (flash_sync true full_ctx (sim_env 0)))).
  - reflexivity.
  - vm_compute. reflexivity.
Defined.

Lemma flush_is_one_commit_witness :
  fbw_write true 2 (Some (ctx_of_write three_bytes)) (Some write_buf) 0 true
    (env_of_write three_bytes)
  = (let '(rc, c', e') :=
       flash_sync true (ctx_of_write three_bytes) (env_of_write three_bytes) in
     Some (rc, Some c', e')).
Proof.
  apply (flush_is_one_commit true 0 (ctx_of_write three_bytes) write_buf
           (env_of_write three_bytes)).
  - by_computation.
  - by_computation.
  - reflexivity.
  - by_computation.
Defined.

Lemma fbw_erase_remembers_one_page_witness :
  erases (trace (snd erase_fresh)) = [(16, 16)]
  /\ trace (snd erase_back)
     = trace (snd erase_other)
       ++ [EvProtect false; EvErase 16 16; EvProtect true]
  /\ last_erased_page_start_offset (snd (fst erase_back)) = 16.
Proof.
  split; [reflexivity|].
  apply (fbw_erase_remembers_one_page (snd (fst erase_fresh))
           (snd (fst erase_other)) (snd (fst erase_back)) 32 16
           (fst (fst erase_other)) (fst (fst erase_back))
           (snd (sim_page_info 32)) (snd (sim_page_info 16))
           (snd erase_fresh) (snd erase_other) (snd erase_back)).
  - reflexivity.
  - reflexivity.
  - by_computation.
  - vm_compute. reflexivity.
  - vm_compute. reflexivity.
Defined.

Lemma flash_sync_erases_next_page_witness :
  erases (trace (snd (flash_sync true full_ctx (sim_env 0))))
  = erases (trace (sim_env 0)) ++ [(16, 16)].
Proof.
  apply (flash_sync_erases_next_page true full_ctx
           (snd (fst (flash_sync true full_ctx (sim_env 0)))) 0
           (snd (sim_page_info 24)) (sim_env 0)
           (snd (flash_sync true full_ctx (sim_env 0)))).
  - reflexivity.
  - vm_compute. reflexivity.
Defined.

Lemma fbw_init_accepts_wrapped_region_witness :
  exists c',
    fbw_init (Some sim_ctx0) (Some sim_flash) (Some (repeat x00 8)) 8
      (SIZE_MAX - 15) 32 None = Some (0, Some c')
    /\ offset c' = SIZE_MAX - 15 /\ available c' = 32
    /\ total_size (page_layout sim_flash) < offset c' + available c'.
Proof.
  apply (fbw_init_accepts_wrapped_region sim_ctx0 sim_flash (repeat x00 8) 8
           (SIZE_MAX - 15) 32 None).
  - by_computation.
  - by_computation.
  - reflexivity.
  - by_computation.
  - intros l [<- | []]. by_computation.
  - by_computation.
  - reflexivity.
Defined.
